(** * rtm: peak location on the stack volume and waveform gathering

    A shallow embedding of the two source files of the repository:

    - [rtm.py], the driver script: preprocessing call, grid-search call,
      extraction of the stack maximum ([max_coords], [max_loc]), and the
      DEM sandbox (PROJ.4 string, masking of the raster);
    - [utils.py], the acquisition function [gather_waveforms].

    The stack [S] is an [xarray.DataArray]: named axes with coordinate labels
    over a flat row-major buffer.  Samples are exact rationals or NaN, the
    coordinate labels exact rationals.  Python exceptions are values of
    [PyExc]; a computation that may raise returns a [result]. *)

From Stdlib Require Import String Ascii Bool Arith ZArith QArith Lia List.
From Stdlib Require Import DecimalString DecimalZ.
From Stdlib Require Import Sorted Permutation.
Import ListNotations.

Local Open Scope string_scope.
Local Open Scope nat_scope.
Local Open Scope list_scope.

(** ** Python exceptions and results *)

Inductive PyExc : Type :=
| ValueError
| IndexError
| KeyError
| FDSNException
| OtherException (cls : string).

Inductive result (A : Type) : Type :=
| Ok (a : A)
| Raise (e : PyExc).

Arguments Ok {A} a.
Arguments Raise {A} e.

Definition rbind {A B : Type} (r : result A) (k : A -> result B) : result B :=
  match r with
  | Ok a => k a
  | Raise e => Raise e
  end.

Notation "x <- r ;; k" := (rbind r (fun x => k))
  (at level 61, r at next level, right associativity).

(** ** The data array *)

Module Xarray.

(** A floating-point sample: a number or NaN. *)
Inductive sample : Type :=
| NaN
| Num (q : Q).

(** One dimension of the array: its name and its coordinate labels (a time
    label is its timestamp); the size of the array along the dimension is the
    number of labels. *)
Record Axis : Type := { dim : string; labels : list Q }.

(** The value of [attrs['UTM']] when the grid is projected. *)
Record UTM : Type := { zone : Z; southern_hemisphere : bool }.

(** [attrs_UTM] is [None] for Python's [None] (geographic grid). *)
Record DataArray : Type := {
  axes : list Axis;
  values : list sample;
  attrs_UTM : option UTM
}.

Definition shape (S : DataArray) : list nat :=
  map (fun a => length (labels a)) (axes S).

Definition size (sh : list nat) : nat := fold_right Nat.mul 1 sh.

(** All index tuples of an array of shape [sh], in row-major order: the
    order of the flat buffer. *)
Fixpoint indices (sh : list nat) : list (list nat) :=
  match sh with
  | [] => [[]]
  | n :: sh' => flat_map (fun i => map (cons i) (indices sh')) (seq 0 n)
  end.

(** The buffer holds one sample per index tuple. *)
Definition wf (S : DataArray) : Prop :=
  length (values S) = size (shape S).

(** Every cell of the array with its index tuple. *)
Definition cells (S : DataArray) : list (list nat * sample) :=
  combine (indices (shape S)) (values S).

Definition index_eqb (a b : list nat) : bool :=
  if list_eq_dec Nat.eq_dec a b then true else false.

(** [S[idx]] for a full index tuple. *)
Definition item (S : DataArray) (idx : list nat) : option sample :=
  option_map snd (find (fun c => index_eqb (fst c) idx) (cells S)).

(** The larger of two samples, NaN being skipped ([nanmax]). *)
Definition fmax (a b : sample) : sample :=
  match a, b with
  | NaN, _ => b
  | _, NaN => a
  | Num x, Num y => if Qle_bool x y then Num y else Num x
  end.

(** [S.max()]: the reduction raises [ValueError] on a zero-size array and
    otherwise skips NaN (it is NaN only when every sample is). *)
Definition max (S : DataArray) : result sample :=
  match values S with
  | [] => Raise ValueError
  | v :: vs => Ok (fold_left fmax vs v)
  end.

(** [a == b] on samples: numeric equality, false as soon as one is NaN. *)
Definition sample_eqb (a b : sample) : bool :=
  match a, b with
  | Num x, Num y => Qeq_bool x y
  | _, _ => false
  end.

(** [np.nonzero(S == m)]: the index tuples of the cells equal to [m]. *)
Definition nonzero (S : DataArray) (m : sample) : list (list nat) :=
  map fst (filter (fun c => sample_eqb (snd c) m) (cells S)).

(** [np.unique] of the [k]-th components of [nz], for an axis of size [n]:
    the indices along axis [k] that occur in [nz], ascending, once each. *)
Definition unique_axis (nz : list (list nat)) (k n : nat) : list nat :=
  filter (fun i => existsb (fun idx => nth k idx 0 =? i) nz) (seq 0 n).

(** The indexers of [where(..., drop=True)], one list per axis. *)
Definition indexers (S : DataArray) (m : sample) : list (list nat) :=
  map (fun ka => unique_axis (nonzero S m) (fst ka) (length (labels (snd ka))))
      (combine (seq 0 (length (axes S))) (axes S)).

(** [S.where(S == m, drop=True)]: along every axis only the indices at which
    some cell equals [m] are kept (orthogonal indexing), and the kept cells
    that differ from [m] become NaN. *)
Definition where_eq_drop (S : DataArray) (m : sample) : DataArray :=
  let kept := indexers S m in
  {| axes :=
       map (fun ak => {| dim := dim (fst ak);
                         labels := map (fun i => nth i (labels (fst ak)) 0%Q)
                                       (snd ak) |})
           (combine (axes S) kept);
     values :=
       map (fun idx =>
              let orig := map (fun ki => nth (snd ki) (fst ki) 0)
                              (combine kept idx) in
              match item S orig with
              | Some v => if sample_eqb v m then v else NaN
              | None => NaN
              end)
           (indices (map (@length nat) kept));
     attrs_UTM := attrs_UTM S |}.

(** A coordinate read off an indexed array: a scalar along an axis that was
    indexed by an integer, the whole label array along an axis that was not. *)
Inductive coord : Type :=
| Scalar (q : Q)
| Vector (qs : list Q).

(** [D[0, ..., 0].coords] with [n] zeros: [IndexError] when the array has
    fewer than [n] axes or is empty along one of the first [n]. *)
Fixpoint coords_at_zeros (n : nat) (axs : list Axis)
  : result (list (string * coord)) :=
  match n, axs with
  | O, _ => Ok (map (fun a => (dim a, Vector (labels a))) axs)
  | S _, [] => Raise IndexError
  | S n', a :: rest =>
      match labels a with
      | [] => Raise IndexError
      | l :: _ =>
          r <- coords_at_zeros n' rest ;;
          Ok ((dim a, Scalar l) :: r)
      end
  end.

(** [coords[name].values]: [KeyError] for an unknown name. *)
Fixpoint coord_values (cs : list (string * coord)) (name : string)
  : result coord :=
  match cs with
  | [] => Raise KeyError
  | (d, c) :: rest => if String.eqb d name then Ok c else coord_values rest name
  end.

End Xarray.

(** ** The driver script [rtm.py] *)

Module Rtm.
Import Xarray.

(** *** (1) Grab and process the data *)

Definition REMOVE_RESPONSE : bool := true.
Definition FREQ_MIN : Q := 0.5.
Definition FREQ_MAX : Q := 2.
Definition DECIMATION_RATE : Q := 0.05.
Definition SMOOTH_WIN : Z := 120.
Definition AGC_WIN : Z := 250.
Definition AGC_METHOD : string := "gismo".

(** [dict(win_sec=..., method=...)] *)
Record AgcParams : Type := { win_sec : Z; method : string }.

Definition agc_params : AgcParams :=
  {| win_sec := AGC_WIN; method := AGC_METHOD |}.

(** The keyword arguments of a call of [process_waveforms] (the stream
    [st] is a run-time value and is left out). *)
Record ProcessWaveformsArgs : Type := {
  kw_freqmin : Q;
  kw_freqmax : Q;
  kw_envelope : bool;
  kw_smooth_win : Z;
  kw_decimation_rate : Q;
  kw_agc_params : option AgcParams;
  kw_normalize : bool;
  kw_plot_steps : bool
}.

(** The call that produces [st_proc], the input of the grid search. *)
Definition process_waveforms_call : ProcessWaveformsArgs :=
  {| kw_freqmin := FREQ_MIN;
     kw_freqmax := FREQ_MAX;
     kw_envelope := true;
     kw_smooth_win := SMOOTH_WIN;
     kw_decimation_rate := DECIMATION_RATE;
     kw_agc_params := None;
     kw_normalize := true;
     kw_plot_steps := false |}.

(** *** (2) Define grid and perform grid search *)

Definition PROJECTED : bool := false.
Definition X_RADIUS : Q := if PROJECTED then 50000 else 2.
Definition Y_RADIUS : Q := if PROJECTED then 50000 else 2.
Definition SPACING : Q := if PROJECTED then 5000 else 0.1.

Definition STACK_METHOD : string := "sum".
Definition CELERITY_LIST : list Z := [295; 300; 305]%Z.

(** The keyword arguments of the call of [grid_search] ([processed_st] and
    [grid] are run-time values and are left out). *)
Record GridSearchArgs : Type := {
  kw_celerity_list : list Z;
  kw_stack_method : string
}.

Definition grid_search_call : GridSearchArgs :=
  {| kw_celerity_list := CELERITY_LIST; kw_stack_method := STACK_METHOD |}.

(** The two stack methods of a search request. *)
Inductive StackMethod : Type := SUM | PRODUCT.

(** Modelled from the spec: [grid_search] (module [grid_utils]) is not among
    the sources; the stack method of a search request is SUM or PRODUCT, and
    the driver names them ['sum'] and ['product']. *)
Definition stack_method_of_string (s : string) : option StackMethod :=
  if String.eqb s "sum" then Some SUM
  else if String.eqb s "product" then Some PRODUCT
  else None.

(** Modelled from the spec: [grid_search] is not among the sources; the
    volume it returns is indexed by the four named dimensions x, y, time and
    celerity. *)
Definition grid_search_dims : list string := ["x"; "y"; "time"; "celerity"].

Definition stack_volume (S : DataArray) : Prop :=
  wf S /\ length (axes S) = 4 /\
  forall d, In d grid_search_dims -> In d (map dim (axes S)).

(** *** (3) The maximum of the stack *)

(** [max_coords = S.where(S == S.max(), drop=True)[0, 0, 0, 0].coords] *)
Definition max_coords (S : DataArray) : result (list (string * coord)) :=
  m <- max S ;;
  coords_at_zeros 4 (axes (where_eq_drop S m)).

Record Peak : Type := {
  max_x : coord;
  max_y : coord;
  max_time : coord;
  max_celerity : coord
}.

(** Lines 94 to 99: the four coordinates of the maximum. *)
Definition peak (S : DataArray) : result Peak :=
  mc <- max_coords S ;;
  x <- coord_values mc "x" ;;
  y <- coord_values mc "y" ;;
  t <- coord_values mc "time" ;;
  c <- coord_values mc "celerity" ;;
  Ok {| max_x := x; max_y := y; max_time := t; max_celerity := c |}.

Section MaxLoc.

(** [utm.to_latlon(easting, northing, zone_number=, northern=)], which
    returns the pair (latitude, longitude) or raises. *)
Variable to_latlon : coord -> coord -> Z -> bool -> result (coord * coord).

(** Lines 101 to 107. *)
Definition max_loc (S : DataArray) (p : Peak) : result (coord * coord) :=
  match attrs_UTM S with
  | Some u =>
      to_latlon (max_x p) (max_y p) (zone u) (negb (southern_hemisphere u))
  | None => Ok (max_y p, max_x p)
  end.

(** Lines 94 to 107 together: the location handed to the record section. *)
Definition locate (S : DataArray) : result (coord * coord) :=
  p <- peak S ;;
  max_loc S p.

End MaxLoc.

Definition latitude (loc : coord * coord) : coord := fst loc.
Definition longitude (loc : coord * coord) : coord := snd loc.

(** *** What the maximum step computes, cell by cell *)

(** Some sample of the array is a number. *)
Definition has_number (S : DataArray) : bool :=
  existsb (fun v => match v with Num _ => true | NaN => false end) (values S).

(** The first index kept along every axis: the cell of [S] that
    [[0, 0, 0, 0]] reads after [where]. *)
Fixpoint first_kept (kept : list (list nat)) : result (list nat) :=
  match kept with
  | [] => Ok []
  | [] :: _ => Raise IndexError
  | (i :: _) :: rest => r <- first_kept rest ;; Ok (i :: r)
  end.

Definition peak_index (S : DataArray) : result (list nat) :=
  m <- max S ;;
  first_kept (indexers S m).

(** The coordinates of the cell [idx]. *)
Definition coords_of (S : DataArray) (idx : list nat) : list (string * coord) :=
  map (fun ai => (dim (fst ai), Scalar (nth (snd ai) (labels (fst ai)) 0%Q)))
      (combine (axes S) idx).

(** The cell [idx] holds the maximum [m] of the array. *)
Definition holds_maximum (S : DataArray) (m : Q) (idx : list nat) : Prop :=
  exists q, item S idx = Some (Num q) /\ (q == m)%Q.

(** Lexicographic comparison of two index tuples, the axes taken in the
    order [priority]. *)
Fixpoint lex_le (priority : list nat) (a b : list nat) : Prop :=
  match priority with
  | [] => True
  | k :: rest =>
      nth k a 0 < nth k b 0 \/ (nth k a 0 = nth k b 0 /\ lex_le rest a b)
  end.

(** The peak-location step as the specification words it: a cell is
    returned, and it holds the global maximum. *)
Definition returns_a_maximum (S : DataArray) : Prop :=
  exists m idx,
    max S = Ok (Num m) /\ peak_index S = Ok idx /\
    max_coords S = Ok (coords_of S idx) /\ holds_maximum S m idx.

(** [q] is a coordinate label of the dimension named [d]. *)
Definition axis_label (S : DataArray) (d : string) (q : Q) : Prop :=
  exists a, In a (axes S) /\ dim a = d /\ In q (labels a).

(** The error kind the specification names for an empty volume; the script
    defines no exception class of its own. *)
Definition EmptyVolumeError : PyExc := OtherException "EmptyVolumeError".

(** *** Sample volumes *)

Definition lonlat_axes : list Axis :=
  [ {| dim := "x"; labels := [-153.1; -153.0]%Q |};
    {| dim := "y"; labels := [60.0; 60.1]%Q |};
    {| dim := "time"; labels := [0; 20]%Q |};
    {| dim := "celerity"; labels := [295; 300; 305]%Q |} ].

(** A 2 x 2 x 2 x 3 geographic volume with one NaN and its maximum 9 in the
    single cell (1, 0, 1, 1). *)
Definition single_peak_volume : DataArray :=
  {| axes := lonlat_axes;
     values := NaN :: map Num [   2; 1;  2; 3; 2;   1; 1; 1;  2; 2; 2;
                               3; 4; 3;  5; 9; 5;   2; 2; 2;  3; 3; 3]%Q;
     attrs_UTM := None |}.

(** A 2 x 2 x 1 x 1 volume whose maximum 5 sits in the two cells
    (0, 1, 0, 0) and (1, 0, 0, 0). *)
Definition tie_volume : DataArray :=
  {| axes := [ {| dim := "x"; labels := [-153.1; -153.0]%Q |};
               {| dim := "y"; labels := [60.0; 60.1]%Q |};
               {| dim := "time"; labels := [0]%Q |};
               {| dim := "celerity"; labels := [300]%Q |} ];
     values := map Num [1; 5; 5; 1]%Q;
     attrs_UTM := None |}.

(** A 3 x 3 x 2 x 1 volume over a grid of one spacing of radius, whose
    maximum 5 sits in the two cells (0, 1, 0, 0) and (1, 0, 0, 0). *)
Definition tie_grid_volume : DataArray :=
  {| axes := [ {| dim := "x"; labels := [-153.1; -153.0; -152.9]%Q |};
               {| dim := "y"; labels := [59.9; 60.0; 60.1]%Q |};
               {| dim := "time"; labels := [0; 20]%Q |};
               {| dim := "celerity"; labels := [300]%Q |} ];
     values := map Num [1; 1;  5; 1;  1; 1;
                        5; 1;  1; 1;  1; 1;
                        1; 1;  1; 1;  1; 1]%Q;
     attrs_UTM := None |}.

(** A volume with no time sample. *)
Definition empty_volume : DataArray :=
  {| axes := [ {| dim := "x"; labels := [-153.1; -153.0]%Q |};
               {| dim := "y"; labels := [60.0; 60.1]%Q |};
               {| dim := "time"; labels := [] |};
               {| dim := "celerity"; labels := [300]%Q |} ];
     values := [];
     attrs_UTM := None |}.

Definition single_peak : Peak :=
  {| max_x := Scalar (-153.0); max_y := Scalar 60.0;
     max_time := Scalar 20; max_celerity := Scalar 300 |}.

(** A stand-in for [utm.to_latlon] that rejects every input. *)
Definition to_latlon_out_of_range
  : coord -> coord -> Z -> bool -> result (coord * coord) :=
  fun _ _ _ _ => Raise (OtherException "OutOfRangeError").

(** *** Ties and degenerate volumes *)

(** The index tuples [nz] agree on each of the four axes other than [k]. *)
Definition agree_off_axis (k : nat) (nz : list (list nat)) : bool :=
  forallb (fun a =>
    forallb (fun b =>
      forallb (fun j => (j =? k) || (nth j a 0 =? nth j b 0)) (seq 0 4))
      nz) nz.

(** The cells holding the maximum of [S] differ along axis [k] only. *)
Definition max_ties_on_axis (S : DataArray) (k : nat) : bool :=
  match max S with
  | Ok m => agree_off_axis k (nonzero S m)
  | Raise _ => false
  end.

(** A 2 x 2 x 1 x 1 volume of NaN. *)
Definition nan_volume : DataArray :=
  {| axes := axes tie_volume;
     values := [NaN; NaN; NaN; NaN];
     attrs_UTM := None |}.

(** A 1 x 1 x 3 x 1 volume whose maximum 7 lasts over the last two time
    samples. *)
Definition plateau_volume : DataArray :=
  {| axes := [ {| dim := "x"; labels := [-153.1]%Q |};
               {| dim := "y"; labels := [60.0]%Q |};
               {| dim := "time"; labels := [0; 20; 40]%Q |};
               {| dim := "celerity"; labels := [300]%Q |} ];
     values := map Num [2; 7; 7]%Q;
     attrs_UTM := None |}.

(** A volume without a celerity axis. *)
Definition three_axis_volume : DataArray :=
  {| axes := [ {| dim := "x"; labels := [-153.1]%Q |};
               {| dim := "y"; labels := [60.0]%Q |};
               {| dim := "time"; labels := [0; 20; 40]%Q |} ];
     values := map Num [2; 7; 3]%Q;
     attrs_UTM := None |}.

(** A volume whose time axis is named [t]. *)
Definition t_volume : DataArray :=
  {| axes := [ {| dim := "x"; labels := [-153.1]%Q |};
               {| dim := "y"; labels := [60.0]%Q |};
               {| dim := "t"; labels := [0; 20; 40]%Q |};
               {| dim := "celerity"; labels := [300]%Q |} ];
     values := map Num [2; 7; 3]%Q;
     attrs_UTM := None |}.

End Rtm.

(** ** Streams of traces ([obspy]) *)

Module Obspy.

(** The six entries of [Trace.stats] that [Stream.sort] reads; a time is the
    nanosecond timestamp of a [UTCDateTime]. *)
Record Stats : Type := {
  network : string;
  station : string;
  location : string;
  channel : string;
  starttime : Z;
  endtime : Z
}.

Record Trace : Type := { stats : Stats; data : list Z }.

(** A stream is its list of traces. *)
Definition Stream : Type := list Trace.

Section ListSort.

Context {A : Type}.
Variable leb : A -> A -> bool.

(** [list.sort] is stable: an element goes in front of the first element
    that is not smaller than it. *)
Fixpoint insert (x : A) (l : list A) : list A :=
  match l with
  | [] => [x]
  | y :: r => if leb x y then x :: l else y :: insert x r
  end.

Definition list_sort (l : list A) : list A := fold_right insert [] l.

End ListSort.

Inductive key : Type :=
| Knetwork | Kstation | Klocation | Kchannel | Kstarttime | Kendtime.

(** [round(ns, -3)] on an integer: the nearest multiple of 1000, a tie going
    to the even multiple.  Two [UTCDateTime] of the default precision (six
    digits) are compared after this rounding of their nanoseconds. *)
Definition round_us (ns : Z) : Z :=
  let q := (ns / 1000)%Z in
  let r := (ns mod 1000)%Z in
  (1000 * (if (2 * r <? 1000)%Z then q
           else if (1000 <? 2 * r)%Z then q + 1
           else if Z.even q then q
           else q + 1))%Z.

(** [x.stats[k] <= y.stats[k]] *)
Definition key_leb (k : key) (x y : Trace) : bool :=
  match k with
  | Knetwork => String.leb (network (stats x)) (network (stats y))
  | Kstation => String.leb (station (stats x)) (station (stats y))
  | Klocation => String.leb (location (stats x)) (location (stats y))
  | Kchannel => String.leb (channel (stats x)) (channel (stats y))
  | Kstarttime =>
      Z.leb (round_us (starttime (stats x))) (round_us (starttime (stats y)))
  | Kendtime =>
      Z.leb (round_us (endtime (stats x))) (round_us (endtime (stats y)))
  end.

(** The default [keys] of [Stream.sort]. *)
Definition default_keys : list key :=
  [Knetwork; Kstation; Klocation; Kchannel; Kstarttime; Kendtime].

(** [for _i in keys[::-1]: self.traces.sort(key=lambda x: x.stats[_i])] *)
Definition sort_by (keys : list key) (st : Stream) : Stream :=
  fold_left (fun traces k => list_sort (key_leb k) traces) (rev keys) st.

(** [Stream.sort()] *)
Definition Stream_sort (st : Stream) : Stream := sort_by default_keys st.

(** First by [le1]; where [le1] does not separate, by [R]. *)
Definition then_by {A : Type} (le1 R : A -> A -> bool) (x y : A) : bool :=
  le1 x y && (negb (le1 y x) || R x y).

(** The lexicographic order on the listed keys. *)
Fixpoint lex_leb (keys : list key) (x y : Trace) : bool :=
  match keys with
  | [] => true
  | k :: rest => then_by (key_leb k) (lex_leb rest) x y
  end.

(** What the sort sees of a trace: the six keys, the times rounded. *)
Definition sort_key (t : Trace)
  : string * string * string * string * Z * Z :=
  (network (stats t), station (stats t), location (stats t),
   channel (stats t), round_us (starttime (stats t)),
   round_us (endtime (stats t))).

(** The two traces compare equal under each of the default keys. *)
Definition same_key (z t : Trace) : bool :=
  lex_leb default_keys z t && lex_leb default_keys t z.

End Obspy.

(** ** The acquisition function [utils.py] *)

Module Utils.
Import Obspy.

(** The clients: the two of the module and an FDSN client made in the
    function. *)
Inductive Client : Type :=
| iris_client
| avo_client
| FDSN_Client (base_url : string) (user password : option string).

(** One call [client.get_waveforms(network, station, location, channel,
    starttime, endtime)]. *)
Record Request : Type := {
  rq_client : Client;
  rq_network : string;
  rq_station : string;
  rq_location : string;
  rq_channel : string;
  rq_starttime : Z;
  rq_endtime : Z
}.

(** What the function does to the outside, in order ([print] is left out). *)
Inductive Event : Type :=
| Connect (c : Client)
| GetWaveforms (r : Request).

(** The servers: whether making an FDSN client succeeds and what a request
    returns, possibly depending on what happened before. *)
Record World : Type := {
  connect : list Event -> Client -> result unit;
  respond : list Event -> Request -> result Stream
}.

(** Computations that log their events and may raise. *)
Definition M (A : Type) : Type := list Event -> result A * list Event.

Definition ret {A : Type} (a : A) : M A := fun log => (Ok a, log).

Definition bind {A B : Type} (m : M A) (k : A -> M B) : M B :=
  fun log =>
    match m log with
    | (Ok a, log') => k a log'
    | (Raise e, log') => (Raise e, log')
    end.

(** [try: m  except FDSNException: h] *)
Definition try_except_FDSNException {A : Type} (m h : M A) : M A :=
  fun log =>
    match m log with
    | (Raise FDSNException, log') => h log'
    | r => r
    end.

Notation "x <-- m ;;; k" := (bind m (fun x => k))
  (at level 61, m at next level, right associativity).

Section GatherWaveforms.

Variable w : World.

Definition new_FDSN_Client (base_url : string) (user password : option string)
  : M Client :=
  fun log =>
    let c := FDSN_Client base_url user password in
    (_ <- connect w log c ;; Ok c, log ++ [Connect c]).

Definition get_waveforms (c : Client)
  (network station location channel : string) (starttime endtime : Z)
  : M Stream :=
  fun log =>
    let r := {| rq_client := c; rq_network := network; rq_station := station;
                rq_location := location; rq_channel := channel;
                rq_starttime := starttime; rq_endtime := endtime |} in
    (respond w log r, log ++ [GetWaveforms r]).

(** [for x in xs: st_out += body(x)] *)
Fixpoint for_each (xs : list string) (body : string -> M Stream)
  (st_out : Stream) : M Stream :=
  match xs with
  | [] => ret st_out
  | x :: rest =>
      st <-- body x ;;;
      for_each rest body (st_out ++ st)
  end.

(** The blank location code, [''] in the source. *)
Definition blank : string := EmptyString.

Definition member (s : string) (l : list string) : bool :=
  existsb (String.eqb s) l.

(** The [if]/[elif] chain of lines 33 to 95.  [None] is a bare [return],
    [Some st_out] falls through to line 97. *)
Definition gather (source network station : string) (starttime endtime : Z)
  (watc_username watc_password : option string) : M (option Stream) :=
  if String.eqb source "IRIS" then
    st_out <-- get_waveforms iris_client network station "*" "BDF,HDF"
                             starttime endtime ;;;
    ret (Some st_out)
  else if String.eqb source "WATC" then
    c <-- try_except_FDSNException
            (watc_client <-- new_FDSN_Client "http://10.30.5.10:8080"
                                             watc_username watc_password ;;;
             ret (Some watc_client))
            (ret None) ;;;
    match c with
    | None => ret None
    | Some watc_client =>
        st_out <-- get_waveforms watc_client network station "*" "BDF,HDF"
                                 starttime endtime ;;;
        ret (Some st_out)
    end
  else if String.eqb source "AVO" then
    if member station ["ADKI"; "AKS"; "DLL"; "OKIF"; "SDPI"] then
      let channel := if member station ["DLL"; "OKIF"] then "HDF" else "BDF" in
      st_out <--
        (if String.eqb station "AKS" then
           for_each ["BDF"; "BDG"; "BDH"; "BDI"]
             (fun channel =>
                get_waveforms avo_client network station blank channel
                              starttime endtime)
             []
         else
           for_each ["01"; "02"; "03"; "04"; "05"; "06"]
             (fun location =>
                get_waveforms avo_client network station location channel
                              starttime endtime)
             []) ;;;
      ret (Some st_out)
    else
      st_out <-- get_waveforms avo_client network station blank "BDF"
                               starttime endtime ;;;
      ret (Some st_out)
  else
    ret None.

Definition gather_waveforms (source network station : string)
  (starttime endtime : Z) (watc_username watc_password : option string)
  : M (option Stream) :=
  r <-- gather source network station starttime endtime
               watc_username watc_password ;;;
  match r with
  | None => ret None
  | Some st_out => ret (Some (Stream_sort st_out))
  end.

End GatherWaveforms.

(** The waveform requests among the events. *)
Fixpoint requests (log : list Event) : list Request :=
  match log with
  | [] => []
  | GetWaveforms r :: rest => r :: requests rest
  | Connect _ :: rest => requests rest
  end.

(** *** The station table of the AVO branch *)

Definition six_elements : list string := ["01"; "02"; "03"; "04"; "05"; "06"].

(** The (location, channel) pairs requested for a station, as the
    specification lists them. *)
Definition avo_table (station : string) : list (string * string) :=
  if String.eqb station "AKS" then
    map (fun c => (blank, c)) ["BDF"; "BDG"; "BDH"; "BDI"]
  else if member station ["DLL"; "OKIF"] then
    map (fun l => (l, "HDF")) six_elements
  else if member station ["ADKI"; "SDPI"] then
    map (fun l => (l, "BDF")) six_elements
  else
    [(blank, "BDF")].

Definition request_of (c : Client) (network station : string)
  (starttime endtime : Z) (lc : string * string) : Request :=
  {| rq_client := c; rq_network := network; rq_station := station;
     rq_location := fst lc; rq_channel := snd lc;
     rq_starttime := starttime; rq_endtime := endtime |}.

(** *** A sample world *)

Definition sample_trace (sta loc cha : string) : Trace :=
  {| stats := {| network := "AV"; station := sta; location := loc;
                 channel := cha; starttime := 0; endtime := 3600 |};
     data := [] |}.

(** Every connection succeeds; a request is answered with a trace of the
    requested channel and, before it, one of channel HDG. *)
Definition sample_world : World :=
  {| connect := fun _ _ => Ok tt;
     respond := fun _ r =>
       Ok [sample_trace (rq_station r) (rq_location r) "HDG";
           sample_trace (rq_station r) (rq_location r) (rq_channel r)] |}.

(** Two recordings of one channel that start 400 ns apart. *)
Definition early_trace : Trace :=
  {| stats := {| network := "AV"; station := "DLL"; location := "01";
                 channel := "HDF"; starttime := 1000000000;
                 endtime := 3600000000000 |};
     data := [1]%Z |}.

Definition late_trace : Trace :=
  {| stats := {| network := "AV"; station := "DLL"; location := "01";
                 channel := "HDF"; starttime := 1000000400;
                 endtime := 3600000000000 |};
     data := [2]%Z |}.

(** Two servers that return the two recordings, in either order. *)
Definition world_early_first : World :=
  {| connect := fun _ _ => Ok tt;
     respond := fun _ _ => Ok [early_trace; late_trace] |}.

Definition world_late_first : World :=
  {| connect := fun _ _ => Ok tt;
     respond := fun _ _ => Ok [late_trace; early_trace] |}.

(** *** What a call did, read off its log *)

(** The traces the servers returned for the events [new] that follow [log],
    in the order of the requests; a request that raised returned none. *)
Fixpoint answered (w : World) (log new : list Event) : Stream :=
  match new with
  | [] => []
  | Connect c :: rest => answered w (log ++ [Connect c]) rest
  | GetWaveforms r :: rest =>
      match respond w log r with
      | Ok st => st
      | Raise _ => []
      end ++ answered w (log ++ [GetWaveforms r]) rest
  end.

(** The client that serves a source. *)
Definition client_of (source : string) (user password : option string)
  : Client :=
  if String.eqb source "IRIS" then iris_client
  else if String.eqb source "WATC" then
    FDSN_Client "http://10.30.5.10:8080" user password
  else avo_client.

(** An event of a call for [source] asks for the caller's network, station
    and time window through the client of the source, or connects to the
    WATC server with the caller's credentials. *)
Definition event_as_asked (source network station : string)
  (starttime endtime : Z) (user password : option string) (ev : Event)
  : Prop :=
  match ev with
  | GetWaveforms r =>
      rq_client r = client_of source user password /\
      rq_network r = network /\ rq_station r = station /\
      rq_starttime r = starttime /\ rq_endtime r = endtime
  | Connect c =>
      source = "WATC" /\
      c = FDSN_Client "http://10.30.5.10:8080" user password
  end.

(** A world in which the third array element does not answer. *)
Definition failing_world : World :=
  {| connect := fun _ _ => Ok tt;
     respond := fun _ r =>
       if String.eqb (rq_location r) "03" then Raise FDSNException
       else Ok [sample_trace (rq_station r) (rq_location r) (rq_channel r)] |}.

(** *** The plan of a call *)

(** Issue the requests [rs] in order and append what each returns to
    [st_out]; the first request that raises ends the run. *)
Fixpoint fetch (w : World) (rs : list Request) (st_out : Stream) : M Stream :=
  match rs with
  | [] => ret st_out
  | r :: rest =>
      st <-- (fun log => (respond w log r, log ++ [GetWaveforms r])) ;;;
      fetch w rest (st_out ++ st)
  end.

(** Each request of [rs], issued in order after [log], is answered. *)
Fixpoint all_answered (w : World) (log : list Event) (rs : list Request)
  : Prop :=
  match rs with
  | [] => True
  | r :: rest =>
      (exists st, respond w log r = Ok st) /\
      all_answered w (log ++ [GetWaveforms r]) rest
  end.

(** The waveform requests of a call, by source. *)
Definition planned (source network station : string) (starttime endtime : Z)
  (user password : option string) : list Request :=
  if String.eqb source "AVO" then
    map (request_of avo_client network station starttime endtime)
        (avo_table station)
  else if String.eqb source "IRIS" || String.eqb source "WATC" then
    [request_of (client_of source user password) network station
                starttime endtime ("*", "BDF,HDF")]
  else [].

(** The events of a call in which nothing raises. *)
Definition planned_events (source network station : string)
  (starttime endtime : Z) (user password : option string) : list Event :=
  (if String.eqb source "WATC"
   then [Connect (FDSN_Client "http://10.30.5.10:8080" user password)]
   else [])
  ++ map GetWaveforms
         (planned source network station starttime endtime user password).

End Utils.

(** ** The DEM sandbox of [rtm.py] *)

Module Dem.
Import Xarray.

(** The rows of an array of floating-point cells. *)
Definition Raster : Type := list (list sample).

(** A raster band read into an array ([ReadAsArray]): integer or
    floating-point cells, by the type of the band. *)
Inductive Band : Type :=
| IntBand (rows : list (list Z))
| FloatBand (rows : Raster).

(** The cells of a band as numbers. *)
Definition cells_of (b : Band) : Raster :=
  match b with
  | IntBand rows => map (map (fun z => Num (inject_Z z))) rows
  | FloatBand rows => rows
  end.

(** [np.flipud] *)
Definition flipud (b : Band) : Band :=
  match b with
  | IntBand rows => IntBand (rev rows)
  | FloatBand rows => FloatBand (rev rows)
  end.

(** The smaller of two cells; unlike [nanmax], NaN wins ([np.minimum]). *)
Definition fmin (a b : sample) : sample :=
  match a, b with
  | NaN, _ => NaN
  | _, NaN => NaN
  | Num x, Num y => if Qle_bool x y then Num x else Num y
  end.

Definition raster_min (a : Raster) : result sample :=
  match concat a with
  | [] => Raise ValueError
  | v :: vs => Ok (fold_left fmin vs v)
  end.

(** [dem.min()] on a NumPy array: [ValueError] on a zero-size array, NaN as
    soon as one cell is NaN. *)
Definition ndarray_min (b : Band) : result sample := raster_min (cells_of b).

(** The cells equal to [m] replaced by NaN. *)
Definition mask_cells (m : sample) (a : Raster) : Raster :=
  map (map (fun v => if sample_eqb v m then NaN else v)) a.

(** [dem[dem == dem.min()] = np.nan]: an integer array cannot take NaN, and
    the assignment raises [ValueError]. *)
Definition mask_min (b : Band) : result Band :=
  m <- ndarray_min b ;;
  match b with
  | IntBand _ => Raise ValueError
  | FloatBand rows => Ok (FloatBand (mask_cells m rows))
  end.

(** Lines 146 to 148: the band, flipped, without its smallest value. *)
Definition read_dem (band : Band) : result Band :=
  mask_min (flipud band).

(** No cell of the raster is NaN. *)
Definition nan_free (a : Raster) : bool :=
  forallb (forallb (fun v => match v with Num _ => true | NaN => false end)) a.

(** A 2 x 3 band whose smallest value -9999 marks missing data. *)
Definition sample_band : Raster :=
  [ map Num [120; -9999; 135]%Q; map Num [-9999; 140; 150]%Q ].

(** [str(z)] for an integer. *)
Definition str_int (z : Z) : string := NilZero.string_of_int (Z.to_int z).

(** Lines 133 to 135: the PROJ.4 string of the grid's UTM zone. *)
Definition proj_string (u : UTM) : string :=
  let proj_string :=
    String.append "+proj=utm +zone="
      (String.append (str_int (zone u)) " +datum=WGS84") in
  if southern_hemisphere u then String.append proj_string " +south"
  else proj_string.

(** No character of the string is a blank. *)
Fixpoint no_space (s : string) : Prop :=
  match s with
  | EmptyString => True
  | String a s' => a <> " "%char /\ no_space s'
  end.

(** A band with a missing cell already NaN. *)
Definition holed_band : Raster :=
  [ [Num 120; NaN]; [Num (-9999); Num 140] ]%Q.

(** [sample_band] without its smallest value. *)
Definition masked_band : Raster :=
  [ [Num 120; NaN; Num 135]; [NaN; Num 140; Num 150] ]%Q.

(** A 2 x 2 band of integer elevations. *)
Definition int_band : list (list Z) := [ [120; -9999]; [135; 140] ]%Z.

End Dem.

(** ** Facts about arrays *)

Module XarrayFacts.
Import Xarray.

Lemma indices_length (sh : list nat) : length (indices sh) = size sh.
Proof.
  induction sh as [|n sh IH]; simpl; [reflexivity|].
  rewrite <- IH. generalize 0.
  induction n as [|n IHn]; intros a; simpl; [reflexivity|].
  rewrite length_app, length_map, IHn. reflexivity.
Qed.

Lemma indices_bound (sh : list nat) (idx : list nat) :
  In idx (indices sh) ->
  length idx = length sh /\ forall k, k < length sh -> nth k idx 0 < nth k sh 0.
Proof.
  revert idx. induction sh as [|n sh IH]; intros idx H; simpl in H.
  - destruct H as [<-|[]]. split; [reflexivity|]. simpl. lia.
  - apply in_flat_map in H. destruct H as [i [Hi H]].
    apply in_map_iff in H. destruct H as [tl [<- Htl]].
    apply in_seq in Hi. destruct (IH _ Htl) as [Hl Hb].
    split; [simpl; lia|].
    intros [|k] Hk; simpl in *; [lia|]. apply Hb. lia.
Qed.

Lemma indices_NoDup (sh : list nat) : NoDup (indices sh).
Proof.
  induction sh as [|n sh IH]; simpl.
  - constructor; [simpl; tauto|constructor].
  - assert (G : forall l, NoDup l ->
               NoDup (flat_map (fun i => map (cons i) (indices sh)) l)).
    { induction l as [|a l IHl]; intros Hl; simpl; [constructor|].
      inversion Hl as [|? ? Ha Hl']; subst.
      apply NoDup_app.
      - apply Finite.Injective_map_NoDup; [|exact IH].
        intros x y E. now inversion E.
      - apply IHl, Hl'.
      - intros x Hx Hx'. apply in_map_iff in Hx. destruct Hx as [t [<- _]].
        apply in_flat_map in Hx'. destruct Hx' as [b [Hb Hx']].
        apply in_map_iff in Hx'. destruct Hx' as [t' [E _]].
        inversion E; subst. contradiction. }
    apply G, seq_NoDup.
Qed.

Lemma cells_index (S : DataArray) (idx : list nat) (v : sample) :
  In (idx, v) (cells S) -> In idx (indices (shape S)) /\ In v (values S).
Proof.
  intros H. split.
  - eapply in_combine_l, H.
  - eapply in_combine_r, H.
Qed.

Lemma combine_covers {A B : Type} (l1 : list A) (l2 : list B) (y : B) :
  length l2 <= length l1 -> In y l2 -> exists x, In (x, y) (combine l1 l2).
Proof.
  revert l1. induction l2 as [|b l2 IH]; intros l1 Hl Hy; [destruct Hy|].
  destruct l1 as [|a l1]; simpl in Hl; [lia|].
  destruct Hy as [->|Hy].
  - exists a. now left.
  - destruct (IH l1 ltac:(lia) Hy) as [x Hx]. exists x. now right.
Qed.

Lemma values_cells (S : DataArray) (v : sample) :
  wf S -> In v (values S) -> exists idx, In (idx, v) (cells S).
Proof.
  intros Hwf Hv. apply combine_covers; [|exact Hv].
  rewrite indices_length. unfold wf in Hwf. lia.
Qed.

Lemma item_cells (S : DataArray) (idx : list nat) (v : sample) :
  In (idx, v) (cells S) -> item S idx = Some v.
Proof.
  unfold item, cells.
  pose proof (indices_NoDup (shape S)) as ND.
  revert ND. generalize (indices (shape S)) as l1. generalize (values S) as l2.
  intros l2 l1. revert l2.
  induction l1 as [|a l1 IH]; intros l2 ND H; [destruct H|].
  destruct l2 as [|b l2]; [destruct H|].
  inversion ND as [|? ? Ha ND']; subst. simpl in *.
  unfold index_eqb at 1. destruct (list_eq_dec Nat.eq_dec a idx) as [E|NE].
  - subst a. destruct H as [H|H]; [now inversion H|].
    exfalso. apply Ha. eapply in_combine_l, H.
  - destruct H as [H|H]; [inversion H; contradiction|].
    now apply IH.
Qed.

(** *** The maximum *)

Lemma fmax_fold_in (vs : list sample) (v : sample) :
  In (fold_left fmax vs v) (v :: vs).
Proof.
  revert v. induction vs as [|u vs IH]; intros v; simpl; [now left|].
  destruct (IH (fmax v u)) as [E|H].
  - rewrite <- E. destruct v as [|x], u as [|y]; simpl; auto.
    destruct (Qle_bool x y); auto.
  - right. now right.
Qed.

Lemma fmax_fold_num (vs : list sample) (x : Q) :
  exists m, fold_left fmax vs (Num x) = Num m /\ (x <= m)%Q /\
            forall q, In (Num q) vs -> (q <= m)%Q.
Proof.
  revert x. induction vs as [|u vs IH]; intros x; simpl.
  - exists x. split; [reflexivity|]. split; [apply Qle_refl|tauto].
  - destruct u as [|y]; simpl.
    + destruct (IH x) as [m [Hm [Hx Hall]]]. exists m.
      split; [exact Hm|]. split; [exact Hx|].
      intros q [E|H]; [discriminate|now apply Hall].
    + destruct (Qle_bool x y) eqn:E.
      * destruct (IH y) as [m [Hm [Hy Hall]]]. exists m.
        apply Qle_bool_iff in E.
        split; [exact Hm|]. split; [eapply Qle_trans; eassumption|].
        intros q [Eq|H]; [inversion Eq; subst; exact Hy|now apply Hall].
      * destruct (IH x) as [m [Hm [Hx Hall]]]. exists m.
        assert (N : ~ (x <= y)%Q) by (rewrite <- Qle_bool_iff, E; discriminate).
        apply Qnot_le_lt, Qlt_le_weak in N.
        split; [exact Hm|]. split; [exact Hx|].
        intros q [Eq|H]; [|now apply Hall].
        inversion Eq; subst. eapply Qle_trans; eassumption.
Qed.

Lemma fmax_fold_upper (vs : list sample) (v : sample) (q : Q) :
  In (Num q) (v :: vs) ->
  exists m, fold_left fmax vs v = Num m /\ (q <= m)%Q.
Proof.
  revert v. induction vs as [|u vs IH]; intros v H.
  - destruct H as [->|[]]. exists q. split; [reflexivity|apply Qle_refl].
  - destruct v as [|x].
    + simpl. apply IH. destruct H as [E|H]; [discriminate|exact H].
    + destruct (fmax_fold_num (u :: vs) x) as [m [Hm [Hx Hall]]].
      exists m. split; [exact Hm|].
      destruct H as [E|H]; [inversion E; subst; exact Hx|now apply Hall].
Qed.

End XarrayFacts.

(** ** Facts about the maximum step *)

Module RtmFacts.
Import Xarray Rtm XarrayFacts.

Lemma has_number_In (S : DataArray) :
  has_number S = true -> exists q, In (Num q) (values S).
Proof.
  unfold has_number. intros H. apply existsb_exists in H.
  destruct H as [[|q] [Hin H]]; [discriminate|]. now exists q.
Qed.

(** A zero-size array has no sample. *)
Lemma size_zero (sh : list nat) : In 0 sh -> size sh = 0.
Proof.
  induction sh as [|n sh IH]; intros H; [destruct H|]. simpl.
  destruct H as [->|H]; [reflexivity|]. rewrite (IH H). lia.
Qed.

Lemma max_empty (S : DataArray) :
  wf S -> In 0 (shape S) -> max S = Raise ValueError.
Proof.
  intros Hwf H0. unfold wf in Hwf. rewrite (size_zero _ H0) in Hwf.
  unfold max. destruct (values S); [reflexivity|discriminate].
Qed.

(** The maximum of an array with a number in it: a number, attained in some
    cell and above every other number. *)
Lemma max_number (S : DataArray) :
  wf S -> has_number S = true ->
  exists m, max S = Ok (Num m) /\
            (exists idx, In idx (nonzero S (Num m))) /\
            (forall q, In (Num q) (values S) -> (q <= m)%Q).
Proof.
  intros Hwf Hn. destruct (has_number_In _ Hn) as [q0 Hq0].
  unfold max. destruct (values S) as [|v vs] eqn:E; [destruct Hq0|].
  destruct (fmax_fold_upper vs v q0 Hq0) as [m [Hm _]].
  exists m. split; [now rewrite Hm|]. split.
  - pose proof (fmax_fold_in vs v) as Hin. rewrite Hm, <- E in Hin.
    destruct (values_cells S _ Hwf Hin) as [idx Hidx].
    exists idx. unfold nonzero. apply in_map_iff. exists (idx, Num m).
    split; [reflexivity|]. apply filter_In. split; [exact Hidx|].
    simpl. apply Qeq_bool_refl.
  - intros q Hq. destruct (fmax_fold_upper vs v q Hq) as [m' [Hm' Hle]].
    rewrite Hm in Hm'. inversion Hm'; subst. exact Hle.
Qed.

Lemma nonzero_cells (S : DataArray) (m : Q) (idx : list nat) :
  In idx (nonzero S (Num m)) ->
  exists q, In (idx, Num q) (cells S) /\ (q == m)%Q.
Proof.
  unfold nonzero. intros H. apply in_map_iff in H.
  destruct H as [[i v] [E H]]. simpl in E. subst i.
  apply filter_In in H. destruct H as [Hc Hv]. simpl in Hv.
  destruct v as [|q]; [discriminate|]. exists q. split; [exact Hc|].
  now apply Qeq_bool_iff.
Qed.

Lemma nonzero_holds (S : DataArray) (m : Q) (idx : list nat) :
  In idx (nonzero S (Num m)) -> holds_maximum S m idx.
Proof.
  intros H. destruct (nonzero_cells _ _ _ H) as [q [Hc Hq]].
  exists q. split; [now apply item_cells|exact Hq].
Qed.

Lemma nonzero_bound (S : DataArray) (m : Q) (idx : list nat) :
  In idx (nonzero S (Num m)) ->
  length idx = length (axes S) /\
  forall k, k < length (axes S) -> nth k idx 0 < nth k (shape S) 0.
Proof.
  intros H. destruct (nonzero_cells _ _ _ H) as [q [Hc _]].
  apply cells_index in Hc. destruct Hc as [Hi _].
  apply indices_bound in Hi.
  assert (E : length (shape S) = length (axes S)) by apply length_map.
  rewrite E in Hi. exact Hi.
Qed.

(** The first element that passes a filter over a range is the least one. *)
Lemma filter_seq_first (p : nat -> bool) (n a j : nat) :
  a <= j < a + n -> p j = true ->
  exists i rest, filter p (seq a n) = i :: rest /\ p i = true /\
                 forall j', j' < i -> a <= j' -> p j' = false.
Proof.
  revert a. induction n as [|n IH]; intros a Hj Hp; [lia|]. simpl.
  destruct (p a) eqn:Ea.
  - exists a, (filter p (seq (S a) n)). split; [reflexivity|].
    split; [exact Ea|]. intros; lia.
  - assert (j <> a) by (intros ->; congruence).
    destruct (IH (S a) ltac:(lia) Hp) as [i [rest [E [Hi Hleast]]]].
    exists i, rest. split; [exact E|]. split; [exact Hi|].
    intros j' Hlt Hge. destruct (Nat.eq_dec j' a) as [->|]; [exact Ea|].
    apply Hleast; lia.
Qed.

(** Along axis [k], [where] keeps first the least index at which the
    condition holds somewhere. *)
Lemma unique_axis_first (nz : list (list nat)) (k n : nat) (idx0 : list nat) :
  In idx0 nz -> nth k idx0 0 < n ->
  exists i rest, unique_axis nz k n = i :: rest /\
    (exists idx, In idx nz /\ nth k idx 0 = i) /\
    (forall idx, In idx nz -> i <= nth k idx 0).
Proof.
  intros Hin Hlt. unfold unique_axis.
  set (p := fun i => existsb (fun idx => nth k idx 0 =? i) nz).
  assert (Hp : p (nth k idx0 0) = true).
  { unfold p. apply existsb_exists. exists idx0. split; [exact Hin|].
    apply Nat.eqb_refl. }
  destruct (filter_seq_first p n 0 (nth k idx0 0) ltac:(lia) Hp)
    as [i [rest [E [Hi Hleast]]]].
  exists i, rest. split; [exact E|]. split.
  - unfold p in Hi. apply existsb_exists in Hi. destruct Hi as [idx [H1 H2]].
    exists idx. split; [exact H1|]. now apply Nat.eqb_eq.
  - intros idx Hidx. destruct (Nat.le_gt_cases i (nth k idx 0)) as [|Hgt]; [assumption|].
    assert (p (nth k idx 0) = false) as F by (apply Hleast; lia).
    unfold p in F. assert (T : existsb (fun idx' => nth k idx' 0 =? nth k idx 0) nz = true).
    { apply existsb_exists. exists idx. split; [exact Hidx|apply Nat.eqb_refl]. }
    congruence.
Qed.

Lemma lex_le_pointwise (priority : list nat) (a b : list nat) :
  (forall k, In k priority -> nth k a 0 <= nth k b 0) -> lex_le priority a b.
Proof.
  induction priority as [|k rest IH]; intros H; simpl; [exact I|].
  assert (nth k a 0 <= nth k b 0) by (apply H; now left).
  destruct (Nat.eq_dec (nth k a 0) (nth k b 0)) as [E|NE]; [|left; lia].
  right. split; [exact E|]. apply IH. intros k' Hk'. apply H. now right.
Qed.

Lemma indexers_four (S : DataArray) (m : sample) (a0 a1 a2 a3 : Axis) :
  axes S = [a0; a1; a2; a3] ->
  indexers S m =
    [unique_axis (nonzero S m) 0 (length (labels a0));
     unique_axis (nonzero S m) 1 (length (labels a1));
     unique_axis (nonzero S m) 2 (length (labels a2));
     unique_axis (nonzero S m) 3 (length (labels a3))].
Proof. intros E. unfold indexers. rewrite E. reflexivity. Qed.

Lemma axes_where_eq_drop (S : DataArray) (m : sample) :
  axes (where_eq_drop S m) =
    map (fun ak => {| dim := dim (fst ak);
                      labels := map (fun i => nth i (labels (fst ak)) 0%Q)
                                    (snd ak) |})
        (combine (axes S) (indexers S m)).
Proof. reflexivity. Qed.

(** On a four-axis array in which the maximum [m] occurs, the maximum step
    reads the cell made of the least index, axis by axis, at which [m]
    occurs. *)
Lemma first_kept_four (S : DataArray) (m : Q) (idx0 : list nat) :
  length (axes S) = 4 ->
  In idx0 (nonzero S (Num m)) ->
  exists idx,
    length idx = 4 /\
    first_kept (indexers S (Num m)) = Ok idx /\
    coords_at_zeros 4 (axes (where_eq_drop S (Num m))) = Ok (coords_of S idx) /\
    forall k, k < 4 ->
      (exists idx', In idx' (nonzero S (Num m)) /\ nth k idx' 0 = nth k idx 0) /\
      (forall idx', In idx' (nonzero S (Num m)) -> nth k idx 0 <= nth k idx' 0).
Proof.
  intros H4 H0.
  destruct (axes S) as [|a0 [|a1 [|a2 [|a3 [|]]]]] eqn:E; try discriminate.
  destruct (nonzero_bound _ _ _ H0) as [_ Hb]. rewrite E in Hb.
  unfold shape in Hb. rewrite E in Hb. simpl in Hb.
  destruct (unique_axis_first _ 0 _ _ H0 (Hb 0 ltac:(lia))) as [i0 [r0 [E0 [X0 L0]]]].
  destruct (unique_axis_first _ 1 _ _ H0 (Hb 1 ltac:(lia))) as [i1 [r1 [E1 [X1 L1]]]].
  destruct (unique_axis_first _ 2 _ _ H0 (Hb 2 ltac:(lia))) as [i2 [r2 [E2 [X2 L2]]]].
  destruct (unique_axis_first _ 3 _ _ H0 (Hb 3 ltac:(lia))) as [i3 [r3 [E3 [X3 L3]]]].
  exists [i0; i1; i2; i3]. split; [reflexivity|].
  rewrite axes_where_eq_drop, (indexers_four S _ _ _ _ _ E), E0, E1, E2, E3.
  unfold coords_of. rewrite E.
  split; [reflexivity|]. split; [reflexivity|].
  intros k Hk.
  destruct k as [|[|[|[|k]]]]; simpl; try lia; split; assumption.
Qed.

Lemma holds_nonzero (S : DataArray) (m : Q) (idx : list nat) :
  holds_maximum S m idx -> In idx (nonzero S (Num m)).
Proof.
  intros [q [Hi Hq]]. unfold item in Hi.
  destruct (find _ (cells S)) as [[i v]|] eqn:F; [|discriminate].
  simpl in Hi. inversion Hi; subst v.
  apply find_some in F. destruct F as [Hc He]. simpl in He.
  unfold index_eqb in He. destruct (list_eq_dec Nat.eq_dec i idx); [|discriminate].
  subst i. unfold nonzero. apply in_map_iff. exists (idx, Num q).
  split; [reflexivity|]. apply filter_In. split; [exact Hc|].
  simpl. now apply Qeq_bool_iff.
Qed.

(** What the maximum step computes in general.  On a four-axis volume
    holding at least one number it returns the coordinates of the cell [idx]
    made, axis by axis, of the least index at which the global maximum [m]
    occurs.  When that cell itself holds the maximum it is the least maximal
    cell in every lexicographic priority; when the maximum sits in one cell
    only, [idx] is that cell. *)
Theorem max_coords_least_per_axis (S : DataArray) :
  wf S -> length (axes S) = 4 -> has_number S = true ->
  exists m idx,
    max S = Ok (Num m) /\
    (forall q, In (Num q) (values S) -> (q <= m)%Q) /\
    peak_index S = Ok idx /\
    max_coords S = Ok (coords_of S idx) /\
    length idx = 4 /\
    (forall k, k < 4 ->
       (exists idx', holds_maximum S m idx' /\ nth k idx' 0 = nth k idx 0) /\
       (forall idx', holds_maximum S m idx' -> nth k idx 0 <= nth k idx' 0)) /\
    (holds_maximum S m idx ->
       forall priority idx',
         holds_maximum S m idx' -> lex_le priority idx idx') /\
    (forall idx1,
       holds_maximum S m idx1 ->
       (forall idx', holds_maximum S m idx' -> idx' = idx1) ->
       idx = idx1).
Proof.
  intros Hwf H4 Hn.
  destruct (max_number S Hwf Hn) as [m [Hm [[idx0 H0] Hup]]].
  destruct (first_kept_four S m idx0 H4 H0) as [idx [Hl [Hf [Hc Hk]]]].
  exists m, idx.
  split; [exact Hm|]. split; [exact Hup|].
  split; [unfold peak_index; rewrite Hm; exact Hf|].
  split; [unfold max_coords; rewrite Hm; exact Hc|].
  split; [exact Hl|].
  assert (Hk' : forall k, k < 4 ->
       (exists idx', holds_maximum S m idx' /\ nth k idx' 0 = nth k idx 0) /\
       (forall idx', holds_maximum S m idx' -> nth k idx 0 <= nth k idx' 0)).
  { intros k Hlt. destruct (Hk k Hlt) as [[idx' [Hin He]] Hle]. split.
    - exists idx'. split; [now apply nonzero_holds|exact He].
    - intros idx1 H1. apply Hle. now apply holds_nonzero. }
  split; [exact Hk'|]. split.
  - intros _ priority idx' H'. apply lex_le_pointwise. intros k _.
    destruct (Nat.lt_ge_cases k 4) as [Hlt|Hge].
    + now apply (Hk' k Hlt).
    + rewrite (nth_overflow idx) by lia. lia.
  - intros idx1 H1 Huniq.
    destruct (nonzero_bound _ _ _ (holds_nonzero _ _ _ H1)) as [Hl1 _].
    apply (nth_ext _ _ 0 0); [lia|].
    intros k Hlt. rewrite Hl in Hlt.
    destruct (Hk' k Hlt) as [[idx' [Hh He]] _].
    rewrite <- He. now rewrite (Huniq idx' Hh).
Qed.

Lemma max_coords_least_per_axis_witness :
  exists m idx,
    max single_peak_volume = Ok (Num m) /\
    (forall q, In (Num q) (values single_peak_volume) -> (q <= m)%Q) /\
    peak_index single_peak_volume = Ok idx /\
    max_coords single_peak_volume = Ok (coords_of single_peak_volume idx) /\
    length idx = 4 /\
    (forall k, k < 4 ->
       (exists idx', holds_maximum single_peak_volume m idx' /\
                     nth k idx' 0 = nth k idx 0) /\
       (forall idx', holds_maximum single_peak_volume m idx' ->
                     nth k idx 0 <= nth k idx' 0)) /\
    (holds_maximum single_peak_volume m idx ->
       forall priority idx',
         holds_maximum single_peak_volume m idx' -> lex_le priority idx idx') /\
    (forall idx1,
       holds_maximum single_peak_volume m idx1 ->
       (forall idx', holds_maximum single_peak_volume m idx' -> idx' = idx1) ->
       idx = idx1).
Proof.
  apply (max_coords_least_per_axis single_peak_volume); reflexivity.
Defined.

(** C1. The maximum step misses the maximum on a tie across axes.  The
    maximum 5 of [tie_grid_volume] sits in the cells (0, 1, 0, 0) and
    (1, 0, 0, 0); line 94 keeps the indices 0 and 1 along both x and y and
    reads the cell (0, 0, 0, 0), whose value is 1: the coordinates returned
    are not those of a cell holding the maximum. *)
Lemma max_coords_tie_returns_non_maximum :
  wf tie_grid_volume /\ has_number tie_grid_volume = true /\
  max tie_grid_volume = Ok (Num 5) /\
  item tie_grid_volume [0; 1; 0; 0] = Some (Num 5) /\
  item tie_grid_volume [1; 0; 0; 0] = Some (Num 5) /\
  peak_index tie_grid_volume = Ok [0; 0; 0; 0] /\
  max_coords tie_grid_volume =
    Ok [("x", Scalar (-153.1)); ("y", Scalar 59.9);
        ("time", Scalar 0); ("celerity", Scalar 300)] /\
  max_coords tie_grid_volume = Ok (coords_of tie_grid_volume [0; 0; 0; 0]) /\
  peak tie_grid_volume =
    Ok {| max_x := Scalar (-153.1); max_y := Scalar 59.9;
          max_time := Scalar 0; max_celerity := Scalar 300 |} /\
  item tie_grid_volume [0; 0; 0; 0] = Some (Num 1) /\
  ~ returns_a_maximum tie_grid_volume.
Proof.
  repeat (split; [reflexivity|]).
  intros [m [idx [Hm [Hp [_ [q [Hi Hq]]]]]]].
  vm_compute in Hm. vm_compute in Hp.
  inversion Hm; subst m. inversion Hp; subst idx.
  vm_compute in Hi. inversion Hi; subst q.
  vm_compute in Hq. discriminate.
Qed.

(** C4 (amended). On a volume of zero size along some axis the maximum step
    raises the [ValueError] of the reduction [S.max()]: no coordinate and no
    location is returned. *)
Theorem empty_volume_raises_ValueError (S : DataArray) :
  wf S -> In 0 (shape S) ->
  max_coords S = Raise ValueError /\
  peak S = Raise ValueError /\
  forall to_latlon, locate to_latlon S = Raise ValueError.
Proof.
  intros Hwf H0.
  assert (E : max_coords S = Raise ValueError).
  { unfold max_coords. now rewrite (max_empty S Hwf H0). }
  assert (P : peak S = Raise ValueError).
  { unfold peak. now rewrite E. }
  split; [exact E|]. split; [exact P|].
  intros to_latlon. unfold locate. now rewrite P.
Qed.

Lemma empty_volume_raises_ValueError_witness :
  max_coords empty_volume = Raise ValueError /\
  peak empty_volume = Raise ValueError /\
  forall to_latlon, locate to_latlon empty_volume = Raise ValueError.
Proof.
  apply (empty_volume_raises_ValueError empty_volume).
  - reflexivity.
  - simpl. tauto.
Defined.

(** C4 (as stated) fails: the error of the step on [empty_volume] is the
    reduction's [ValueError], not [EmptyVolumeError]. *)
Lemma empty_volume_not_EmptyVolumeError :
  wf empty_volume /\ In 0 (shape empty_volume) /\
  peak empty_volume = Raise ValueError /\
  peak empty_volume <> Raise EmptyVolumeError.
Proof.
  split; [reflexivity|]. split; [simpl; tauto|]. split; [reflexivity|].
  vm_compute. discriminate.
Qed.

Lemma coord_values_scalar (axs : list Axis) (idx : list nat) (name : string) :
  Forall2 (fun a i => i < length (labels a)) axs idx ->
  In name (map dim axs) ->
  exists a q,
    In a axs /\ dim a = name /\ In q (labels a) /\
    coord_values
      (map (fun ai => (dim (fst ai), Scalar (nth (snd ai) (labels (fst ai)) 0%Q)))
           (combine axs idx)) name = Ok (Scalar q).
Proof.
  induction 1 as [|a i axs idx Hi HF IH]; intros Hin; [destruct Hin|].
  simpl. destruct (String.eqb_spec (dim a) name) as [E|NE].
  - exists a, (nth i (labels a) 0%Q).
    split; [now left|]. split; [exact E|]. split; [now apply nth_In|reflexivity].
  - destruct Hin as [E|Hin]; [contradiction|].
    destruct (IH Hin) as [a' [q [Ha [Hd [Hq Hc]]]]].
    exists a', q. split; [now right|]. now repeat split.
Qed.

(** C8. On a volume with the four dimensions of the grid search that holds
    a number, the maximum step reads one scalar coordinate for each of x, y,
    time and celerity, each of them a label of its own axis. *)
Theorem stack_volume_coordinates_readable (S : DataArray) :
  stack_volume S -> has_number S = true ->
  exists x y t c,
    peak S = Ok {| max_x := Scalar x; max_y := Scalar y;
                   max_time := Scalar t; max_celerity := Scalar c |} /\
    axis_label S "x" x /\ axis_label S "y" y /\
    axis_label S "time" t /\ axis_label S "celerity" c.
Proof.
  intros [Hwf [H4 Hd]] Hn.
  destruct (max_number S Hwf Hn) as [m [Hm [[idx0 H0] _]]].
  destruct (first_kept_four S m idx0 H4 H0) as [idx [Hl [_ [Hc Hk]]]].
  assert (HF : Forall2 (fun a i => i < length (labels a)) (axes S) idx).
  { assert (Hb : forall k, k < 4 -> nth k idx 0 < nth k (shape S) 0).
    { intros k Hlt. destruct (Hk k Hlt) as [[idx' [Hin He]] _].
      rewrite <- He. apply (nonzero_bound _ _ _ Hin). lia. }
    unfold shape in Hb.
    destruct (axes S) as [|a0 [|a1 [|a2 [|a3 [|]]]]]; try discriminate.
    destruct idx as [|i0 [|i1 [|i2 [|i3 [|]]]]]; try discriminate.
    repeat constructor.
    - apply (Hb 0); lia.
    - apply (Hb 1); lia.
    - apply (Hb 2); lia.
    - apply (Hb 3); lia. }
  assert (Hmc : max_coords S = Ok (coords_of S idx)).
  { unfold max_coords. rewrite Hm. exact Hc. }
  destruct (coord_values_scalar _ _ "x" HF (Hd "x" ltac:(simpl; tauto)))
    as [ax [x [Ax1 [Ax2 [Ax3 Ex]]]]].
  destruct (coord_values_scalar _ _ "y" HF (Hd "y" ltac:(simpl; tauto)))
    as [ay [y [Ay1 [Ay2 [Ay3 Ey]]]]].
  destruct (coord_values_scalar _ _ "time" HF (Hd "time" ltac:(simpl; tauto)))
    as [at_ [t [At1 [At2 [At3 Et]]]]].
  destruct (coord_values_scalar _ _ "celerity" HF (Hd "celerity" ltac:(simpl; tauto)))
    as [ac [c [Ac1 [Ac2 [Ac3 Ec]]]]].
  exists x, y, t, c. split.
  - unfold peak. rewrite Hmc. unfold coords_of. simpl rbind.
    rewrite Ex, Ey, Et, Ec. reflexivity.
  - split; [now exists ax|]. split; [now exists ay|].
    split; [now exists at_|now exists ac].
Qed.

Lemma stack_volume_coordinates_readable_witness :
  exists x y t c,
    peak single_peak_volume =
      Ok {| max_x := Scalar x; max_y := Scalar y;
            max_time := Scalar t; max_celerity := Scalar c |} /\
    axis_label single_peak_volume "x" x /\
    axis_label single_peak_volume "y" y /\
    axis_label single_peak_volume "time" t /\
    axis_label single_peak_volume "celerity" c.
Proof.
  apply (stack_volume_coordinates_readable single_peak_volume).
  - split; [reflexivity|]. split; [reflexivity|].
    simpl. intros d H. repeat (destruct H as [<-|H]; [tauto|]). destruct H.
  - reflexivity.
Defined.

(** C2. Once the peak is read, the reported location is, on a projected
    volume, what [utm.to_latlon] returns for the winning (x, y) with the zone
    number of the volume's UTM attribute and [northern] the negation of its
    southern-hemisphere flag; on a geographic volume it is the winning cell's
    own coordinates, latitude (y) first and longitude (x) second. *)
Theorem max_loc_deprojection
  (to_latlon : coord -> coord -> Z -> bool -> result (coord * coord))
  (S : DataArray) (p : Peak) :
  peak S = Ok p ->
  (forall u, attrs_UTM S = Some u ->
     locate to_latlon S =
       to_latlon (max_x p) (max_y p) (zone u) (negb (southern_hemisphere u))) /\
  (attrs_UTM S = None ->
     exists loc, locate to_latlon S = Ok loc /\
                 latitude loc = max_y p /\ longitude loc = max_x p).
Proof.
  intros Hp. unfold locate, max_loc. rewrite Hp. simpl. split.
  - intros u Hu. now rewrite Hu.
  - intros Hn. rewrite Hn. exists (max_y p, max_x p). now repeat split.
Qed.

Lemma max_loc_deprojection_witness :
  (forall u, attrs_UTM single_peak_volume = Some u ->
     locate to_latlon_out_of_range single_peak_volume =
       to_latlon_out_of_range (max_x single_peak) (max_y single_peak) (zone u)
                              (negb (southern_hemisphere u))) /\
  (attrs_UTM single_peak_volume = None ->
     exists loc, locate to_latlon_out_of_range single_peak_volume = Ok loc /\
                 latitude loc = max_y single_peak /\
                 longitude loc = max_x single_peak).
Proof.
  apply (max_loc_deprojection to_latlon_out_of_range single_peak_volume
                              single_peak).
  reflexivity.
Defined.

(** C3. The driver builds the AGC parameters (window 250 s, method
    ['gismo']) and calls [process_waveforms] with [agc_params=None]: the
    parameters it built are not those of the call. *)
Theorem agc_params_not_passed :
  agc_params = {| win_sec := 250; method := "gismo" |} /\
  kw_agc_params process_waveforms_call = None /\
  kw_agc_params process_waveforms_call <> Some agc_params.
Proof.
  split; [reflexivity|]. split; [reflexivity|]. simpl. discriminate.
Qed.

(** C6. The celerity list of the grid-search call is [295, 300, 305]:
    strictly increasing, hence without repetition, and positive. *)
Theorem celerity_list_increasing_positive :
  kw_celerity_list grid_search_call = [295; 300; 305]%Z /\
  StronglySorted Z.lt (kw_celerity_list grid_search_call) /\
  NoDup (kw_celerity_list grid_search_call) /\
  Forall (fun c => (0 < c)%Z) (kw_celerity_list grid_search_call).
Proof.
  split; [reflexivity|]. simpl. split.
  - repeat (constructor; [|repeat constructor; lia]). constructor.
  - split.
    + repeat (constructor; [simpl; intros H; repeat destruct H as [H|H];
                            try discriminate; exact H|]).
      constructor.
    + repeat constructor.
Qed.

(** C7. The stack method of the grid-search call is ['sum'], one of the two
    methods of a search request. *)
Theorem stack_method_is_sum :
  kw_stack_method grid_search_call = "sum" /\
  In (kw_stack_method grid_search_call) ["sum"; "product"] /\
  stack_method_of_string (kw_stack_method grid_search_call) = Some SUM.
Proof.
  split; [reflexivity|]. split; [simpl; tauto|reflexivity].
Qed.

End RtmFacts.

(** ** Facts about [Stream.sort] *)

Module ObspyFacts.
Import Obspy.

Section StableSort.

Context {A : Type}.
Variables le1 R : A -> A -> bool.

Hypothesis le1_total : forall x y, le1 x y = true \/ le1 y x = true.
Hypothesis le1_trans :
  forall x y z, le1 x y = true -> le1 y z = true -> le1 x z = true.

Lemma insert_In (x y : A) (l : list A) :
  In y (insert le1 x l) -> y = x \/ In y l.
Proof.
  induction l as [|z l IH]; simpl.
  - intros [<-|[]]. now left.
  - destruct (le1 x z).
    + intros [<-|H]; [now left|now right].
    + intros [<-|H]; [right; now left|].
      destruct (IH H) as [->|H']; [now left|right; now right].
Qed.

Lemma insert_perm (x : A) (l : list A) : Permutation (x :: l) (insert le1 x l).
Proof.
  induction l as [|z l IH]; simpl; [apply Permutation_refl|].
  destruct (le1 x z); [apply Permutation_refl|].
  eapply perm_trans; [apply perm_swap|]. now apply perm_skip.
Qed.

Lemma list_sort_perm (l : list A) : Permutation l (list_sort le1 l).
Proof.
  induction l as [|x l IH]; simpl; [constructor|].
  eapply perm_trans; [|apply insert_perm]. now apply perm_skip.
Qed.

(** Inserting in front of its [R]-successors keeps the combined order. *)
Lemma insert_then_by (x : A) (s : list A) :
  StronglySorted (fun a b => then_by le1 R a b = true) s ->
  Forall (fun z => R x z = true) s ->
  StronglySorted (fun a b => then_by le1 R a b = true) (insert le1 x s).
Proof.
  induction 1 as [|y r Hr IH Hy]; intros HR; simpl.
  - repeat constructor.
  - inversion HR as [|? ? Rxy HR']; subst.
    destruct (le1 x y) eqn:Exy.
    + constructor; [now constructor|].
      constructor.
      * unfold then_by. rewrite Exy, Rxy. now rewrite orb_true_r.
      * rewrite Forall_forall in Hy, HR' |- *. intros z Hz.
        specialize (Hy z Hz). unfold then_by in Hy |- *.
        apply andb_true_iff in Hy. destruct Hy as [Hyz _].
        rewrite (le1_trans _ _ _ Exy Hyz), (HR' z Hz).
        now rewrite orb_true_r.
    + constructor; [now apply IH|].
      rewrite Forall_forall in Hy |- *. intros z Hz.
      destruct (insert_In _ _ _ Hz) as [->|Hz']; [|now apply Hy].
      unfold then_by. rewrite Exy. simpl.
      destruct (le1_total x y) as [H|H]; [congruence|now rewrite H].
Qed.

(** A stable sort of an [R]-sorted list is sorted by [le1] and then [R]. *)
Lemma list_sort_then_by (l : list A) :
  StronglySorted (fun a b => R a b = true) l ->
  StronglySorted (fun a b => then_by le1 R a b = true) (list_sort le1 l).
Proof.
  induction 1 as [|x l Hl IH Hx]; simpl; [constructor|].
  apply insert_then_by; [exact IH|].
  rewrite Forall_forall in Hx |- *. intros z Hz. apply Hx.
  eapply Permutation_in; [|exact Hz].
  apply Permutation_sym, list_sort_perm.
Qed.

End StableSort.

(** [round(1500, -3)], [round(2500, -3)], [round(-1500, -3)],
    [round(499, -3)], [round(501, -3)]. *)
Example round_us_half_even :
  map round_us [1500; 2500; -1500; 499; 501]%Z
  = [2000; 2000; -2000; 0; 1000]%Z.
Proof. reflexivity. Qed.

Lemma ascii_compare_refl (a : ascii) : Ascii.compare a a = Eq.
Proof. unfold Ascii.compare. apply N.compare_refl. Qed.

Lemma string_leb_trans (a b c : string) :
  String.leb a b = true -> String.leb b c = true -> String.leb a c = true.
Proof.
  unfold String.leb. revert b c.
  induction a as [|x a IH]; intros [|y b] [|z c]; simpl; try congruence.
  destruct (Ascii.compare x y) eqn:Exy; try congruence;
  destruct (Ascii.compare y z) eqn:Eyz; try congruence.
  - apply Ascii.compare_eq_iff in Exy, Eyz. subst.
    rewrite ascii_compare_refl. apply IH.
  - apply Ascii.compare_eq_iff in Exy. subst. now rewrite Eyz.
  - apply Ascii.compare_eq_iff in Eyz. subst. now rewrite Exy.
  - unfold Ascii.compare in *. rewrite N.compare_lt_iff in Exy, Eyz.
    assert (H : (N_of_ascii x < N_of_ascii z)%N) by lia.
    rewrite <- N.compare_lt_iff in H. now rewrite H.
Qed.

Lemma key_leb_total (k : key) (x y : Trace) :
  key_leb k x y = true \/ key_leb k y x = true.
Proof.
  destruct k; cbn [key_leb]; try apply String.leb_total;
    rewrite !Z.leb_le; lia.
Qed.

Lemma key_leb_trans (k : key) (x y z : Trace) :
  key_leb k x y = true -> key_leb k y z = true -> key_leb k x z = true.
Proof.
  destruct k; cbn [key_leb]; try apply string_leb_trans;
    rewrite !Z.leb_le; lia.
Qed.

Lemma sort_by_cons (k : key) (keys : list key) (st : Stream) :
  sort_by (k :: keys) st = list_sort (key_leb k) (sort_by keys st).
Proof. unfold sort_by. simpl. now rewrite fold_left_app. Qed.

Lemma sort_by_perm (keys : list key) (st : Stream) :
  Permutation st (sort_by keys st).
Proof.
  induction keys as [|k keys IH]; [apply Permutation_refl|].
  rewrite sort_by_cons. eapply perm_trans; [exact IH|apply list_sort_perm].
Qed.

(** Sorting by the keys from the last to the first, stably, sorts in the
    lexicographic order of the keys. *)
Lemma sort_by_sorted (keys : list key) (st : Stream) :
  StronglySorted (fun x y => lex_leb keys x y = true) (sort_by keys st).
Proof.
  induction keys as [|k keys IH].
  - unfold sort_by. simpl. induction st as [|x st IHst]; constructor.
    + exact IHst.
    + now apply Forall_forall.
  - rewrite sort_by_cons.
    apply (list_sort_then_by (key_leb k) (lex_leb keys)
             (key_leb_total k) (key_leb_trans k)).
    exact IH.
Qed.

Section SortedKeys.

Context {A K : Type}.
Variable f : A -> K.
Variable le : A -> A -> bool.

Hypothesis le_compat :
  forall x x' y y', f x = f x' -> f y = f y' -> le x y = le x' y'.
Hypothesis le_antisym :
  forall x y, le x y = true -> le y x = true -> f x = f y.

(** Two sorted lists with the same keys up to order have the same keys in
    the same order. *)
Lemma sorted_keys_unique (l1 l2 : list A) :
  StronglySorted (fun x y => le x y = true) l1 ->
  StronglySorted (fun x y => le x y = true) l2 ->
  Permutation (map f l1) (map f l2) ->
  map f l1 = map f l2.
Proof.
  revert l2. induction l1 as [|x l1 IH]; intros l2 S1 S2 P; simpl in *.
  - apply Permutation_nil in P. now rewrite P.
  - destruct l2 as [|y l2]; simpl in *.
    { apply Permutation_sym, Permutation_nil in P. discriminate. }
    inversion S1 as [|? ? S1' F1]; inversion S2 as [|? ? S2' F2]; subst.
    rewrite Forall_forall in F1, F2.
    assert (E : f x = f y).
    { assert (Hx : In (f x) (f y :: map f l2))
        by (eapply Permutation_in; [exact P|now left]).
      assert (Hy : In (f y) (f x :: map f l1))
        by (eapply Permutation_in; [apply Permutation_sym; exact P|now left]).
      destruct Hx as [Hx|Hx]; [now symmetry|].
      destruct Hy as [Hy|Hy]; [exact Hy|].
      apply in_map_iff in Hx, Hy.
      destruct Hx as [z [Ez Hz]]. destruct Hy as [z' [Ez' Hz']].
      apply le_antisym.
      - rewrite <- (le_compat x x z' y eq_refl Ez'). now apply F1.
      - rewrite <- (le_compat y y z x eq_refl Ez). now apply F2. }
    rewrite E in P |- *. apply Permutation_cons_inv in P.
    f_equal. now apply IH.
Qed.

End SortedKeys.

Lemma then_by_both {A : Type} (le1 R : A -> A -> bool) (x y : A) :
  then_by le1 R x y = true -> then_by le1 R y x = true ->
  le1 x y = true /\ le1 y x = true /\ R x y = true /\ R y x = true.
Proof.
  unfold then_by. intros H1 H2.
  apply andb_true_iff in H1, H2. destruct H1 as [A1 B1], H2 as [A2 B2].
  rewrite A2 in B1. rewrite A1 in B2. simpl in *. tauto.
Qed.

Lemma lex_leb_compat (keys : list key) (x x' y y' : Trace) :
  sort_key x = sort_key x' -> sort_key y = sort_key y' ->
  lex_leb keys x y = lex_leb keys x' y'.
Proof.
  unfold sort_key. intros Ex Ey.
  injection Ex as N1 S1 L1 C1 T1 E1. injection Ey as N2 S2 L2 C2 T2 E2.
  induction keys as [|k keys IH]; simpl; [reflexivity|].
  unfold then_by. rewrite IH.
  destruct k; cbn [key_leb];
    rewrite ?N1, ?N2, ?S1, ?S2, ?L1, ?L2, ?C1, ?C2, ?T1, ?T2, ?E1, ?E2;
    reflexivity.
Qed.

Lemma same_key_keys (k : key) (x y : Trace) :
  same_key x y = true -> key_leb k x y = true /\ key_leb k y x = true.
Proof.
  unfold same_key, default_keys. intros H.
  apply andb_true_iff in H. destruct H as [H1 H2]. cbn [lex_leb] in H1, H2.
  destruct (then_by_both _ _ _ _ H1 H2) as [N1 [N2 [H3 H4]]].
  destruct (then_by_both _ _ _ _ H3 H4) as [S1 [S2 [H5 H6]]].
  destruct (then_by_both _ _ _ _ H5 H6) as [L1 [L2 [H7 H8]]].
  destruct (then_by_both _ _ _ _ H7 H8) as [C1 [C2 [H9 H10]]].
  destruct (then_by_both _ _ _ _ H9 H10) as [T1 [T2 [H11 H12]]].
  destruct (then_by_both _ _ _ _ H11 H12) as [E1 [E2 _]].
  destruct k; now split.
Qed.

Lemma lex_leb_antisym (x y : Trace) :
  lex_leb default_keys x y = true -> lex_leb default_keys y x = true ->
  sort_key x = sort_key y.
Proof.
  intros H1 H2.
  assert (H : same_key x y = true) by (unfold same_key; now rewrite H1, H2).
  destruct (same_key_keys Knetwork x y H) as [N1 N2].
  destruct (same_key_keys Kstation x y H) as [S1 S2].
  destruct (same_key_keys Klocation x y H) as [L1 L2].
  destruct (same_key_keys Kchannel x y H) as [C1 C2].
  destruct (same_key_keys Kstarttime x y H) as [T1 T2].
  destruct (same_key_keys Kendtime x y H) as [E1 E2].
  cbn [key_leb] in *. unfold sort_key.
  rewrite (String.leb_antisym _ _ N1 N2), (String.leb_antisym _ _ S1 S2),
          (String.leb_antisym _ _ L1 L2), (String.leb_antisym _ _ C1 C2).
  apply Z.leb_le in T1, T2, E1, E2.
  assert (T : round_us (starttime (stats x)) = round_us (starttime (stats y)))
    by lia.
  assert (E : round_us (endtime (stats x)) = round_us (endtime (stats y)))
    by lia.
  now rewrite T, E.
Qed.

(** The order of the keys after [Stream.sort] does not depend on the order
    of the traces before it. *)
Lemma Stream_sort_keys_perm (raw raw' : Stream) :
  Permutation raw raw' ->
  map sort_key (Stream_sort raw') = map sort_key (Stream_sort raw).
Proof.
  intros P.
  apply (sorted_keys_unique sort_key (lex_leb default_keys)).
  - intros x x' y y'. apply lex_leb_compat.
  - apply lex_leb_antisym.
  - apply sort_by_sorted.
  - apply sort_by_sorted.
  - apply Permutation_map.
    eapply perm_trans; [apply Permutation_sym, sort_by_perm|].
    eapply perm_trans; [apply Permutation_sym, P|apply sort_by_perm].
Qed.

Section Stable.

Context {A : Type}.
Variable le1 : A -> A -> bool.
Variable P : A -> bool.

(** The elements selected by [P] do not separate under [le1]. *)
Hypothesis P_class : forall x y, P x = true -> P y = true -> le1 x y = true.

Lemma filter_insert (x : A) (l : list A) :
  filter P (insert le1 x l) = filter P (x :: l).
Proof.
  induction l as [|y r IH]; [reflexivity|].
  cbn [insert]. destruct (le1 x y) eqn:E; [reflexivity|].
  cbn [filter] in IH |- *. rewrite IH.
  destruct (P x) eqn:Px, (P y) eqn:Py; try reflexivity.
  rewrite (P_class x y Px Py) in E. discriminate.
Qed.

(** A stable sort keeps the selected elements in their order. *)
Lemma filter_list_sort (l : list A) :
  filter P (list_sort le1 l) = filter P l.
Proof.
  induction l as [|x l IH]; [reflexivity|].
  cbn [list_sort fold_right]. fold (list_sort le1 l).
  rewrite filter_insert. cbn [filter]. now rewrite IH.
Qed.

End Stable.

(** [Stream.sort] keeps the traces that compare equal to [z] in the order
    they had. *)
Lemma sort_by_stable (keys : list key) (z : Trace) (st : Stream) :
  filter (same_key z) (sort_by keys st) = filter (same_key z) st.
Proof.
  induction keys as [|k keys IH]; [reflexivity|].
  rewrite sort_by_cons, filter_list_sort; [exact IH|].
  intros x y Hx Hy.
  destruct (same_key_keys k z x Hx) as [_ Hxz].
  destruct (same_key_keys k z y Hy) as [Hzy _].
  now apply (key_leb_trans k x z y).
Qed.

End ObspyFacts.

(** ** Facts about [gather_waveforms] *)

Module UtilsFacts.
Import Obspy Utils ObspyFacts.

Lemma requests_app (l l' : list Event) :
  requests (l ++ l') = requests l ++ requests l'.
Proof.
  induction l as [|[c|r] l IH]; simpl; [reflexivity|exact IH|now rewrite IH].
Qed.

(** Lines 97 to 99 after the branches: [None] is passed on, a stream is
    sorted, an exception propagates; nothing is logged. *)
Lemma gather_waveforms_unfold (w : World) (source network station : string)
  (starttime endtime : Z) (user password : option string) (log : list Event) :
  gather_waveforms w source network station starttime endtime user password log
  = match gather w source network station starttime endtime user password log
    with
    | (Ok None, log') => (Ok None, log')
    | (Ok (Some st_out), log') => (Ok (Some (Stream_sort st_out)), log')
    | (Raise e, log') => (Raise e, log')
    end.
Proof.
  unfold gather_waveforms, bind.
  destruct (gather _ _ _ _ _ _ _ _ _) as [[[st|]|e] log']; reflexivity.
Qed.

(** A branch that ends in [ret (Some st_out)] does not return [None]. *)
Lemma bind_Some (m : M Stream) (log : list Event) :
  let out := (st_out <-- m ;;; ret (Some st_out)) log in
  snd out = snd (m log) /\
  fst out <> Ok None /\
  forall o, fst out = Ok o -> exists st, fst (m log) = Ok st /\ o = Some st.
Proof.
  unfold bind, ret. destruct (m log) as [[st|e] log']; simpl.
  - split; [reflexivity|]. split; [discriminate|].
    intros o H. inversion H. now exists st.
  - split; [reflexivity|]. split; [discriminate|]. discriminate.
Qed.

Lemma gather_waveforms_outcome (w : World) (source network station : string)
  (starttime endtime : Z) (user password : option string) (log : list Event) :
  let g := gather w source network station starttime endtime user password log in
  let out := gather_waveforms w source network station starttime endtime
                              user password log in
  snd out = snd g /\
  (fst out = Ok None <-> fst g = Ok None) /\
  (forall st, fst out = Ok (Some st) <->
              exists raw, fst g = Ok (Some raw) /\ st = Stream_sort raw) /\
  (forall o, fst out = Ok o -> exists o', fst g = Ok o').
Proof.
  cbv zeta. rewrite gather_waveforms_unfold.
  destruct (gather _ _ _ _ _ _ _ _ _) as [[[raw|]|e] log']; simpl.
  - split; [reflexivity|]. split; [split; discriminate|]. split.
    + intros st. split.
      * intros H. inversion H. now exists raw.
      * intros [raw' [H ->]]. now inversion H.
    + intros o _. now exists (Some raw).
  - split; [reflexivity|]. split; [tauto|]. split.
    + intros st. split; [discriminate|]. intros [raw [H _]]. discriminate.
    + intros o _. now exists None.
  - split; [reflexivity|]. split; [split; discriminate|]. split.
    + intros st. split; [discriminate|]. intros [raw [H _]]. discriminate.
    + discriminate.
Qed.

Lemma gather_None (w : World) (source network station : string)
  (starttime endtime : Z) (user password : option string) (log : list Event) :
  let g := gather w source network station starttime endtime user password log in
  (fst g = Ok None <->
     (source <> "IRIS" /\ source <> "WATC" /\ source <> "AVO") \/
     (source = "WATC" /\
      connect w log (FDSN_Client "http://10.30.5.10:8080" user password)
        = Raise FDSNException)) /\
  (fst g = Ok None -> requests (snd g) = requests log).
Proof.
  cbv zeta. unfold gather.
  destruct (String.eqb_spec source "IRIS") as [->|NI].
  { match goal with |- context [bind ?m _ log] =>
      destruct (bind_Some m log) as [_ [N _]] end.
    cbv zeta in N. split; [|tauto]. split; [tauto|].
    intros [[H _]|[H _]]; [congruence|discriminate]. }
  destruct (String.eqb_spec source "WATC") as [->|NW].
  { unfold bind, try_except_FDSNException, new_FDSN_Client, get_waveforms, ret, rbind.
    destruct (connect w log _) as [[]|e] eqn:C.
    - destruct (respond w _ _); simpl; (split; [|discriminate]);
        (split; [discriminate|]); intros [[_ [H _]]|[_ H]]; congruence.
    - destruct e; simpl; rewrite ?requests_app, ?app_nil_r;
        try (split; [|discriminate]; split; [discriminate|];
             intros [[_ [H _]]|[_ H]]; congruence).
      split; [|reflexivity]. split; [|reflexivity]. intros _. right. tauto. }
  destruct (String.eqb_spec source "AVO") as [->|NA].
  { destruct (member station _);
      match goal with |- context [bind ?m _ log] =>
        destruct (bind_Some m log) as [_ [N _]] end;
      cbv zeta in N;
      (split; [|intros H; exfalso; exact (N H)]);
      (split; [intros H; exfalso; exact (N H)|]);
      intros [[_ [_ H]]|[H _]]; congruence || discriminate. }
  simpl. split; [|reflexivity]. split; [|reflexivity]. intros _. left. tauto.
Qed.

Lemma gather_other_requests (w : World) (source network station : string)
  (starttime endtime : Z) (user password : option string) (log : list Event) :
  source <> "AVO" ->
  exists new,
    snd (gather w source network station starttime endtime user password log)
      = log ++ new /\
    Forall (fun r => rq_network r = network /\ rq_station r = station /\
                     rq_location r = "*" /\ rq_channel r = "BDF,HDF")
           (requests new).
Proof.
  intros NA. unfold gather.
  destruct (String.eqb_spec source "IRIS") as [->|NI].
  { unfold bind, get_waveforms, ret.
    destruct (respond w log _); simpl; eexists; (split; [reflexivity|]);
      simpl; repeat constructor. }
  destruct (String.eqb_spec source "WATC") as [->|NW].
  { unfold bind, try_except_FDSNException, new_FDSN_Client, get_waveforms, ret, rbind.
    destruct (connect w log _) as [[]|e].
    - destruct (respond w _ _); simpl; rewrite <- app_assoc; eexists;
        (split; [reflexivity|]); simpl; repeat constructor.
    - destruct e; simpl; eexists; (split; [reflexivity|]); simpl; constructor. }
  destruct (String.eqb_spec source "AVO") as [->|_]; [congruence|].
  exists []. simpl. rewrite app_nil_r. split; [reflexivity|constructor].
Qed.

(** C9. [gather_waveforms] returns [None] exactly when the source is none
    of ['IRIS'], ['WATC'], ['AVO'], or when it is ['WATC'] and making the
    WATC client raises [FDSNException]; no waveform request is issued in
    either case. *)
Theorem gather_waveforms_None_iff (w : World)
  (source network station : string) (starttime endtime : Z)
  (user password : option string) (log : list Event) :
  let out := gather_waveforms w source network station starttime endtime
                              user password log in
  (fst out = Ok None <->
     (source <> "IRIS" /\ source <> "WATC" /\ source <> "AVO") \/
     (source = "WATC" /\
      connect w log (FDSN_Client "http://10.30.5.10:8080" user password)
        = Raise FDSNException)) /\
  (fst out = Ok None -> requests (snd out) = requests log).
Proof.
  cbv zeta.
  destruct (gather_waveforms_outcome w source network station starttime
              endtime user password log) as [Hs [Hn _]].
  destruct (gather_None w source network station starttime endtime
              user password log) as [Hiff Hreq].
  rewrite Hs, Hn. split; [exact Hiff|exact Hreq].
Qed.

(** C10 (amended). A stream returned by [gather_waveforms] is the gathered
    traces after [Stream.sort()]: a permutation of them, sorted by network,
    station, location, channel, start time and end time in this
    lexicographic priority, the times compared to the microsecond.  The
    order of the keys is the same for every order in which the traces were
    gathered; traces that compare equal stay in the order of their
    arrival. *)
Theorem gather_waveforms_sorted (w : World)
  (source network station : string) (starttime endtime : Z)
  (user password : option string) (log : list Event) (st : Stream) :
  fst (gather_waveforms w source network station starttime endtime
                        user password log) = Ok (Some st) ->
  StronglySorted (fun x y => lex_leb default_keys x y = true) st /\
  exists raw,
    fst (gather w source network station starttime endtime user password log)
      = Ok (Some raw) /\
    st = Stream_sort raw /\
    Permutation raw st /\
    (forall raw', Permutation raw raw' ->
                  map sort_key (Stream_sort raw') = map sort_key st) /\
    (forall z, filter (same_key z) st = filter (same_key z) raw).
Proof.
  intros H.
  destruct (gather_waveforms_outcome w source network station starttime
              endtime user password log) as [_ [_ [Hst _]]].
  apply Hst in H. destruct H as [raw [Hg ->]].
  split; [apply sort_by_sorted|].
  exists raw. split; [exact Hg|]. split; [reflexivity|].
  split; [apply sort_by_perm|]. split.
  - intros raw' P. now apply Stream_sort_keys_perm.
  - intros z. apply sort_by_stable.
Qed.

Lemma gather_waveforms_sorted_witness :
  StronglySorted (fun x y => lex_leb default_keys x y = true)
    [sample_trace "DLL" "*" "BDF,HDF"; sample_trace "DLL" "*" "HDG"] /\
  exists raw,
    fst (gather sample_world "IRIS" "AV" "DLL" 0 3600 None None [])
      = Ok (Some raw) /\
    [sample_trace "DLL" "*" "BDF,HDF"; sample_trace "DLL" "*" "HDG"]
      = Stream_sort raw /\
    Permutation raw
      [sample_trace "DLL" "*" "BDF,HDF"; sample_trace "DLL" "*" "HDG"] /\
    (forall raw', Permutation raw raw' ->
                  map sort_key (Stream_sort raw') =
                  map sort_key [sample_trace "DLL" "*" "BDF,HDF";
                                sample_trace "DLL" "*" "HDG"]) /\
    (forall z,
       filter (same_key z)
         [sample_trace "DLL" "*" "BDF,HDF"; sample_trace "DLL" "*" "HDG"]
       = filter (same_key z) raw).
Proof.
  apply (gather_waveforms_sorted sample_world "IRIS" "AV" "DLL" 0 3600
                                 None None []).
  reflexivity.
Defined.

(** C10 (as stated) fails: the order of the returned traces depends on the
    order of their arrival.  Two recordings of one channel that start less
    than a microsecond apart compare equal; with source ['IRIS'] the stream
    holds them as the server sent them, the later one first when it came
    first. *)
Lemma gather_waveforms_keeps_arrival_order :
  fst (gather_waveforms world_early_first "IRIS" "AV" "DLL" 0 3600
                        None None [])
    = Ok (Some [early_trace; late_trace]) /\
  fst (gather_waveforms world_late_first "IRIS" "AV" "DLL" 0 3600
                        None None [])
    = Ok (Some [late_trace; early_trace]) /\
  Permutation [early_trace; late_trace] [late_trace; early_trace] /\
  [early_trace; late_trace] <> [late_trace; early_trace] /\
  (starttime (stats early_trace) < starttime (stats late_trace))%Z.
Proof.
  split; [reflexivity|]. split; [reflexivity|].
  split; [apply perm_swap|]. split; [discriminate|reflexivity].
Qed.

End UtilsFacts.

(** ** More on the maximum step *)

Module RtmExtra.
Import Xarray Rtm XarrayFacts RtmFacts.

Lemma sample_eqb_NaN (v : sample) : sample_eqb v NaN = false.
Proof. now destruct v. Qed.

Lemma nonzero_NaN (S : DataArray) : nonzero S NaN = [].
Proof.
  unfold nonzero. induction (cells S) as [|c l IH]; simpl; [reflexivity|].
  now rewrite sample_eqb_NaN.
Qed.

Lemma unique_axis_nil (k n : nat) : unique_axis [] k n = [].
Proof.
  unfold unique_axis. simpl. induction (seq 0 n) as [|i l IH]; simpl; auto.
Qed.

Lemma max_all_NaN (S : DataArray) :
  values S <> [] -> has_number S = false -> max S = Ok NaN.
Proof.
  unfold max, has_number. destruct (values S) as [|v vs]; [congruence|].
  intros _ H. f_equal. simpl in H. apply orb_false_iff in H.
  destruct H as [Hv H]. destruct v; [|discriminate]. clear Hv.
  induction vs as [|u vs IH]; simpl in *; [reflexivity|].
  apply orb_false_iff in H. destruct H as [Hu H].
  destruct u; [now apply IH|discriminate].
Qed.

Lemma max_nonempty (S : DataArray) :
  values S <> [] -> exists m, max S = Ok m.
Proof.
  unfold max. destruct (values S) as [|v vs]; [congruence|].
  intros _. now eexists.
Qed.

Lemma coords_at_zeros_short (n : nat) (axs : list Axis) :
  length axs < n -> coords_at_zeros n axs = Raise IndexError.
Proof.
  revert axs. induction n as [|n IH]; intros axs H; [lia|].
  destruct axs as [|a rest]; [reflexivity|]. simpl in *.
  destruct (labels a); [reflexivity|].
  rewrite IH by lia. reflexivity.
Qed.

(** X5. On a volume that is not empty and holds NaN only, the maximum is
    NaN, no cell equals it, and the maximum step raises [IndexError]. *)
Theorem all_NaN_raises_IndexError (S : DataArray) :
  values S <> [] -> has_number S = false ->
  max S = Ok NaN /\
  max_coords S = Raise IndexError /\
  peak S = Raise IndexError.
Proof.
  intros Hv Hn. pose proof (max_all_NaN S Hv Hn) as Hm.
  assert (E : max_coords S = Raise IndexError).
  { unfold max_coords. rewrite Hm. cbn [rbind].
    rewrite axes_where_eq_drop. unfold indexers. rewrite nonzero_NaN.
    destruct (axes S) as [|a rest]; [reflexivity|].
    simpl. rewrite unique_axis_nil. reflexivity. }
  split; [exact Hm|]. split; [exact E|]. unfold peak. now rewrite E.
Qed.

Lemma all_NaN_raises_IndexError_witness :
  max nan_volume = Ok NaN /\
  max_coords nan_volume = Raise IndexError /\
  peak nan_volume = Raise IndexError.
Proof.
  apply (all_NaN_raises_IndexError nan_volume).
  - discriminate.
  - reflexivity.
Defined.

(** X6. On a volume with samples and fewer than four axes the maximum step
    raises [IndexError]. *)
Theorem fewer_than_four_axes_raises_IndexError (S : DataArray) :
  values S <> [] -> length (axes S) < 4 ->
  max_coords S = Raise IndexError /\ peak S = Raise IndexError.
Proof.
  intros Hv Hl. destruct (max_nonempty S Hv) as [m Hm].
  assert (E : max_coords S = Raise IndexError).
  { unfold max_coords. rewrite Hm. cbn [rbind].
    apply coords_at_zeros_short. rewrite axes_where_eq_drop.
    rewrite length_map, length_combine. lia. }
  split; [exact E|]. unfold peak. now rewrite E.
Qed.

Lemma fewer_than_four_axes_raises_IndexError_witness :
  max_coords three_axis_volume = Raise IndexError /\
  peak three_axis_volume = Raise IndexError.
Proof.
  apply (fewer_than_four_axes_raises_IndexError three_axis_volume).
  - discriminate.
  - simpl. lia.
Defined.

Lemma coord_values_cases (cs : list (string * coord)) (name : string) :
  (exists c, coord_values cs name = Ok c) \/
  coord_values cs name = Raise KeyError.
Proof.
  induction cs as [|[d c] cs IH]; simpl; [now right|].
  destruct (String.eqb d name); [left; now exists c|exact IH].
Qed.

Lemma coord_values_missing (cs : list (string * coord)) (name : string) :
  ~ In name (map fst cs) -> coord_values cs name = Raise KeyError.
Proof.
  induction cs as [|[d c] cs IH]; simpl; intros H; [reflexivity|].
  destruct (String.eqb_spec d name) as [->|_]; [tauto|].
  apply IH. tauto.
Qed.

Lemma coords_of_names (S : DataArray) (idx : list nat) (d : string) :
  In d (map fst (coords_of S idx)) -> In d (map dim (axes S)).
Proof.
  unfold coords_of. rewrite map_map. simpl. intros H.
  apply in_map_iff in H. destruct H as [[a i] [<- H]].
  apply in_combine_l in H. now apply in_map.
Qed.

(** X7. On a four-axis volume holding a number, if one of the names x, y,
    time, celerity is not the name of an axis, reading the coordinates raises
    [KeyError]. *)
Theorem missing_dimension_raises_KeyError (S : DataArray) (name : string) :
  wf S -> length (axes S) = 4 -> has_number S = true ->
  In name grid_search_dims -> ~ In name (map dim (axes S)) ->
  peak S = Raise KeyError.
Proof.
  intros Hwf H4 Hn Hname Hmiss.
  destruct (max_number S Hwf Hn) as [m [Hm [[idx0 H0] _]]].
  destruct (first_kept_four S m idx0 H4 H0) as [idx [_ [_ [Hc _]]]].
  assert (Hmc : max_coords S = Ok (coords_of S idx)).
  { unfold max_coords. rewrite Hm. exact Hc. }
  assert (K : coord_values (coords_of S idx) name = Raise KeyError).
  { apply coord_values_missing. intros H. apply Hmiss.
    now apply (coords_of_names S idx). }
  unfold peak. rewrite Hmc. cbn [rbind].
  destruct (coord_values_cases (coords_of S idx) "x") as [[x Ex]|Ex];
    rewrite Ex; [|reflexivity].
  destruct (coord_values_cases (coords_of S idx) "y") as [[y Ey]|Ey];
    cbn [rbind]; rewrite Ey; [|reflexivity].
  destruct (coord_values_cases (coords_of S idx) "time") as [[t Et]|Et];
    cbn [rbind]; rewrite Et; [|reflexivity].
  destruct (coord_values_cases (coords_of S idx) "celerity") as [[c Ec]|Ec];
    cbn [rbind]; rewrite Ec; [|reflexivity].
  exfalso. simpl in Hname.
  destruct Hname as [<-|[<-|[<-|[<-|[]]]]]; congruence.
Qed.

Lemma missing_dimension_raises_KeyError_witness :
  peak t_volume = Raise KeyError.
Proof.
  apply (missing_dimension_raises_KeyError t_volume "time").
  - reflexivity.
  - reflexivity.
  - reflexivity.
  - simpl. tauto.
  - simpl. intros H. repeat (destruct H as [H|H]; [discriminate|]). exact H.
Defined.

Lemma agree_off_axis_spec (k : nat) (nz : list (list nat)) (a b : list nat)
  (j : nat) :
  agree_off_axis k nz = true -> In a nz -> In b nz -> j < 4 -> j <> k ->
  nth j a 0 = nth j b 0.
Proof.
  unfold agree_off_axis. intros H Ha Hb Hj Hk.
  rewrite forallb_forall in H. specialize (H a Ha).
  rewrite forallb_forall in H. specialize (H b Hb).
  rewrite forallb_forall in H. specialize (H j).
  assert (Hin : In j (seq 0 4)) by (apply in_seq; lia).
  specialize (H Hin). apply orb_true_iff in H.
  destruct H as [H|H]; [apply Nat.eqb_eq in H; contradiction|].
  now apply Nat.eqb_eq.
Qed.

(** X8. When the cells holding the maximum differ along one axis only, the
    maximum step returns one of them: the first along that axis. *)
Theorem tie_along_one_axis_returns_first (S : DataArray) (k : nat) :
  wf S -> length (axes S) = 4 -> has_number S = true -> k < 4 ->
  max_ties_on_axis S k = true ->
  exists m idx,
    max S = Ok (Num m) /\
    peak_index S = Ok idx /\
    max_coords S = Ok (coords_of S idx) /\
    holds_maximum S m idx /\
    forall idx', holds_maximum S m idx' -> nth k idx 0 <= nth k idx' 0.
Proof.
  intros Hwf H4 Hn Hk Ht.
  destruct (max_number S Hwf Hn) as [m [Hm [[idx0 H0] _]]].
  destruct (first_kept_four S m idx0 H4 H0) as [idx [Hl [Hf [Hc Hax]]]].
  unfold max_ties_on_axis in Ht. rewrite Hm in Ht.
  exists m, idx.
  split; [exact Hm|].
  split; [unfold peak_index; rewrite Hm; exact Hf|].
  split; [unfold max_coords; rewrite Hm; exact Hc|].
  destruct (Hax k Hk) as [[idxk [Hin Hek]] Hle].
  assert (E : idx = idxk).
  { destruct (nonzero_bound _ _ _ Hin) as [Hlk _].
    apply (nth_ext _ _ 0 0); [lia|].
    intros j Hj. rewrite Hl in Hj.
    destruct (Nat.eq_dec j k) as [->|Hjk]; [now symmetry|].
    destruct (Hax j Hj) as [[idxj [Hinj Hej]] _].
    rewrite <- Hej. now apply (agree_off_axis_spec k _ idxj idxk j Ht). }
  split.
  - rewrite E. now apply nonzero_holds.
  - intros idx' H'. apply Hle. now apply holds_nonzero.
Qed.

Lemma tie_along_one_axis_returns_first_witness :
  exists m idx,
    max plateau_volume = Ok (Num m) /\
    peak_index plateau_volume = Ok idx /\
    max_coords plateau_volume = Ok (coords_of plateau_volume idx) /\
    holds_maximum plateau_volume m idx /\
    forall idx', holds_maximum plateau_volume m idx' ->
                 nth 2 idx 0 <= nth 2 idx' 0.
Proof.
  apply (tie_along_one_axis_returns_first plateau_volume 2);
    try reflexivity.
  lia.
Defined.

End RtmExtra.

(** ** Facts about the DEM sandbox *)

Module DemFacts.
Import Xarray Dem RtmExtra.

Lemma nan_free_In (a : Raster) (v : sample) :
  nan_free a = true -> In v (concat a) -> exists q, v = Num q.
Proof.
  unfold nan_free. intros H Hin. apply in_concat in Hin.
  destruct Hin as [row [Hrow Hv]].
  rewrite forallb_forall in H. specialize (H row Hrow).
  rewrite forallb_forall in H. specialize (H v Hv).
  destruct v as [|q]; [discriminate|now exists q].
Qed.

Lemma fmin_fold_NaN (vs : list sample) : fold_left fmin vs NaN = NaN.
Proof. induction vs as [|u vs IH]; simpl; [reflexivity|exact IH]. Qed.

(** The minimum of cells among which one is NaN is NaN. *)
Lemma fmin_fold_has_NaN (vs : list sample) (v : sample) :
  In NaN (v :: vs) -> fold_left fmin vs v = NaN.
Proof.
  revert v. induction vs as [|u vs IH]; intros v H; simpl in *.
  - destruct H as [->|[]]. reflexivity.
  - destruct H as [->|[->|H]].
    + apply fmin_fold_NaN.
    + destruct v; apply fmin_fold_NaN.
    + apply IH. now right.
Qed.

(** The minimum of numbers is one of them, below the others. *)
Lemma fmin_fold_num (vs : list sample) (x : Q) :
  (forall v, In v vs -> exists q, v = Num q) ->
  exists m, fold_left fmin vs (Num x) = Num m /\
            In (Num m) (Num x :: vs) /\ (m <= x)%Q /\
            forall q, In (Num q) vs -> (m <= q)%Q.
Proof.
  revert x. induction vs as [|u vs IH]; intros x Hnum; simpl.
  - exists x. split; [reflexivity|]. split; [now left|].
    split; [apply Qle_refl|tauto].
  - destruct (Hnum u (or_introl eq_refl)) as [y ->]. simpl.
    assert (Hnum' : forall v, In v vs -> exists q, v = Num q)
      by (intros v Hv; apply Hnum; now right).
    destruct (Qle_bool x y) eqn:E.
    + destruct (IH x Hnum') as [m [Hm [Hin [Hx Hall]]]]. exists m.
      apply Qle_bool_iff in E.
      split; [exact Hm|]. split; [destruct Hin; [now left|right; now right]|].
      split; [exact Hx|].
      intros q [Eq|H]; [|now apply Hall].
      inversion Eq; subst. eapply Qle_trans; eassumption.
    + destruct (IH y Hnum') as [m [Hm [Hin [Hy Hall]]]]. exists m.
      assert (N : ~ (x <= y)%Q) by (rewrite <- Qle_bool_iff, E; discriminate).
      apply Qnot_le_lt, Qlt_le_weak in N.
      split; [exact Hm|]. split; [right; exact Hin|].
      split; [eapply Qle_trans; eassumption|].
      intros q [Eq|H]; [|now apply Hall].
      inversion Eq; subst. exact Hy.
Qed.

Lemma raster_min_nan_free (a : Raster) :
  nan_free a = true -> concat a <> [] ->
  exists m, raster_min a = Ok (Num m) /\ In (Num m) (concat a) /\
            forall q, In (Num q) (concat a) -> (m <= q)%Q.
Proof.
  intros Hf Hne. unfold raster_min.
  pose proof (nan_free_In a) as Hnum. specialize (fun v => Hnum v Hf).
  destruct (concat a) as [|v vs]; [congruence|].
  destruct (Hnum v (or_introl eq_refl)) as [x ->].
  destruct (fmin_fold_num vs x (fun u Hu => Hnum u (or_intror Hu)))
    as [m [Hm [Hin [Hx Hall]]]].
  exists m. split; [now rewrite Hm|]. split; [exact Hin|].
  intros q [E|H]; [inversion E; subst; exact Hx|now apply Hall].
Qed.

Lemma raster_min_has_NaN (a : Raster) :
  In NaN (concat a) -> raster_min a = Ok NaN.
Proof.
  unfold raster_min. destruct (concat a) as [|v vs]; [intros []|].
  intros H. now rewrite fmin_fold_has_NaN.
Qed.

(** The minimum of an array raises nothing but [ValueError]. *)
Lemma raster_min_cases (a : Raster) :
  (exists m, raster_min a = Ok m) \/ raster_min a = Raise ValueError.
Proof.
  unfold raster_min. destruct (concat a); [now right|left; now eexists].
Qed.

Lemma mask_cells_NaN (a : Raster) : mask_cells NaN a = a.
Proof.
  unfold mask_cells.
  induction a as [|row a IH]; simpl; [reflexivity|]. rewrite IH. f_equal.
  induction row as [|v row IHr]; simpl; [reflexivity|].
  now rewrite sample_eqb_NaN, IHr.
Qed.

Lemma mask_min_NaN (a : Raster) :
  In NaN (concat a) -> mask_min (FloatBand a) = Ok (FloatBand a).
Proof.
  intros H. unfold mask_min, ndarray_min. cbn [cells_of].
  rewrite (raster_min_has_NaN a H). cbn [rbind].
  now rewrite mask_cells_NaN.
Qed.

(** Masking an integer band raises [ValueError], whatever its cells. *)
Lemma mask_min_int (rows : list (list Z)) :
  mask_min (IntBand rows) = Raise ValueError.
Proof.
  unfold mask_min, ndarray_min.
  destruct (raster_min_cases (cells_of (IntBand rows))) as [[m ->]| ->];
    reflexivity.
Qed.

Lemma nan_free_false (a : Raster) : nan_free a = false -> In NaN (concat a).
Proof.
  unfold nan_free. induction a as [|row a IH]; simpl; [discriminate|].
  intros H. apply andb_false_iff in H. apply in_or_app.
  destruct H as [H|H]; [left|right; now apply IH].
  induction row as [|v row IHr]; simpl in *; [discriminate|].
  destruct v; [now left|right; now apply IHr].
Qed.

Lemma In_masked (m : Q) (l : list sample) (v : sample) :
  In v (map (fun u => if sample_eqb u (Num m) then NaN else u) l) <->
  exists u, In u l /\ v = if sample_eqb u (Num m) then NaN else u.
Proof.
  rewrite in_map_iff. split; intros [u [H1 H2]]; exists u; split; auto.
Qed.

Lemma concat_masked (m : sample) (a : Raster) :
  concat (mask_cells m a)
  = map (fun v => if sample_eqb v m then NaN else v) (concat a).
Proof. unfold mask_cells. now rewrite concat_map. Qed.

(** Masking a raster without NaN leaves a NaN where the minimum was. *)
Lemma mask_min_leaves_NaN (a a' : Raster) :
  nan_free a = true -> mask_min (FloatBand a) = Ok (FloatBand a') ->
  In NaN (concat a').
Proof.
  intros Hf H.
  assert (Hne : concat a <> []).
  { intros E. unfold mask_min, ndarray_min, raster_min in H.
    cbn [cells_of] in H. rewrite E in H. discriminate. }
  destruct (raster_min_nan_free a Hf Hne) as [m [Hm [Hin _]]].
  unfold mask_min, ndarray_min in H. cbn [cells_of] in H.
  rewrite Hm in H. cbn [rbind] in H. inversion H; subst a'.
  rewrite concat_masked. apply In_masked. exists (Num m).
  split; [exact Hin|]. simpl. now rewrite Qeq_bool_refl.
Qed.

(** X10. On a floating-point raster without NaN, masking turns the cells
    equal to the minimum into NaN and leaves the others: the rows keep their
    lengths, a NaN appears, and the numbers left are those above the
    minimum.  On an integer band the assignment of NaN raises
    [ValueError]. *)
Theorem mask_min_removes_the_minimum (a : Raster) :
  nan_free a = true -> concat a <> [] ->
  (exists m a',
     ndarray_min (FloatBand a) = Ok (Num m) /\
     mask_min (FloatBand a) = Ok (FloatBand a') /\
     (forall q, In (Num q) (concat a) -> (m <= q)%Q) /\
     map (@length sample) a' = map (@length sample) a /\
     In NaN (concat a') /\
     (forall q, In (Num q) (concat a') <->
                In (Num q) (concat a) /\ (m < q)%Q)) /\
  (forall rows, mask_min (IntBand rows) = Raise ValueError).
Proof.
  intros Hf Hne. split; [|apply mask_min_int].
  destruct (raster_min_nan_free a Hf Hne) as [m [Hm [Hin Hall]]].
  exists m, (mask_cells (Num m) a). split; [exact Hm|].
  split.
  { unfold mask_min, ndarray_min. cbn [cells_of]. now rewrite Hm. }
  split; [exact Hall|]. split; [|split].
  - unfold mask_cells. rewrite map_map. apply map_ext. intros row.
    apply length_map.
  - rewrite concat_masked. apply In_masked. exists (Num m).
    split; [exact Hin|]. simpl. now rewrite Qeq_bool_refl.
  - intros q. rewrite concat_masked, In_masked. split.
    + intros [u [Hu E]]. destruct (sample_eqb u (Num m)) eqn:B; [discriminate|].
      subst u. split; [exact Hu|]. simpl in B.
      pose proof (Hall q Hu) as L. apply Qle_lteq in L.
      destruct L as [L|L]; [exact L|].
      apply Qeq_sym, Qeq_bool_iff in L. congruence.
    + intros [Hq L]. exists (Num q). split; [exact Hq|]. simpl.
      destruct (Qeq_bool q m) eqn:B; [|reflexivity].
      apply Qeq_bool_iff in B. rewrite B in L.
      exfalso. now apply (Qlt_irrefl m).
Qed.

Lemma mask_min_removes_the_minimum_witness :
  (exists m a',
     ndarray_min (FloatBand sample_band) = Ok (Num m) /\
     mask_min (FloatBand sample_band) = Ok (FloatBand a') /\
     (forall q, In (Num q) (concat sample_band) -> (m <= q)%Q) /\
     map (@length sample) a' = map (@length sample) sample_band /\
     In NaN (concat a') /\
     (forall q, In (Num q) (concat a') <->
                In (Num q) (concat sample_band) /\ (m < q)%Q)) /\
  (forall rows, mask_min (IntBand rows) = Raise ValueError).
Proof.
  apply (mask_min_removes_the_minimum sample_band).
  - reflexivity.
  - discriminate.
Defined.

(** X11. On a raster with a NaN cell the minimum is NaN and masking changes
    nothing: the smallest number stays. *)
Theorem mask_min_with_NaN_changes_nothing (a : Raster) :
  In NaN (concat a) ->
  ndarray_min (FloatBand a) = Ok NaN /\
  mask_min (FloatBand a) = Ok (FloatBand a).
Proof.
  intros H. split; [now apply raster_min_has_NaN|now apply mask_min_NaN].
Qed.

Lemma mask_min_with_NaN_changes_nothing_witness :
  ndarray_min (FloatBand holed_band) = Ok NaN /\
  mask_min (FloatBand holed_band) = Ok (FloatBand holed_band).
Proof.
  apply (mask_min_with_NaN_changes_nothing holed_band). simpl. tauto.
Defined.

(** X12. Masking a masked raster changes nothing. *)
Theorem mask_min_twice (a a' : Band) :
  mask_min a = Ok a' -> mask_min a' = Ok a'.
Proof.
  intros H. destruct a as [irows|rows].
  - rewrite mask_min_int in H. discriminate.
  - assert (exists rows', a' = FloatBand rows') as [rows' ->].
    { unfold mask_min in H. destruct (ndarray_min (FloatBand rows));
        cbn [rbind] in H; [|discriminate].
      inversion H. now eexists. }
    destruct (nan_free rows) eqn:F.
    + apply mask_min_NaN. now apply (mask_min_leaves_NaN rows).
    + apply nan_free_false in F. rewrite (mask_min_NaN rows F) in H.
      inversion H; subst rows'. now apply mask_min_NaN.
Qed.

Lemma mask_min_twice_witness :
  mask_min (FloatBand masked_band) = Ok (FloatBand masked_band).
Proof.
  apply (mask_min_twice (FloatBand sample_band) (FloatBand masked_band)).
  reflexivity.
Defined.

Lemma In_concat_rev (a : Raster) (v : sample) :
  In v (concat (rev a)) <-> In v (concat a).
Proof.
  rewrite !in_concat. split; intros [row [H1 H2]]; exists row;
    (split; [|exact H2]).
  - now apply in_rev.
  - now apply in_rev in H1.
Qed.

Lemma nan_free_rev (a : Raster) : nan_free (rev a) = nan_free a.
Proof.
  apply eq_true_iff_eq. unfold nan_free. rewrite !forallb_forall.
  split; intros H row Hrow; apply H.
  - apply -> in_rev. exact Hrow.
  - apply <- in_rev. exact Hrow.
Qed.

Lemma sample_eqb_Qeq (m1 m2 : Q) (v : sample) :
  (m1 == m2)%Q -> sample_eqb v (Num m1) = sample_eqb v (Num m2).
Proof.
  intros E. destruct v as [|q]; simpl; [reflexivity|].
  apply eq_true_iff_eq. rewrite !Qeq_bool_iff. now rewrite E.
Qed.

(** X13. Reading the band flipped and masking it gives the masked band
    flipped, with the same error on an empty band or an integer band. *)
Theorem read_dem_masks_then_flips (band : Band) :
  read_dem band = (a <- mask_min band ;; Ok (flipud a)).
Proof.
  unfold read_dem. destruct band as [irows|rows]; cbn [flipud].
  { now rewrite !mask_min_int. }
  destruct (nan_free rows) eqn:F.
  - destruct (concat rows) as [|v0 vs0] eqn:C.
    + assert (C' : concat (rev rows) = []).
      { destruct (concat (rev rows)) as [|v vs] eqn:E; [reflexivity|].
        assert (H : In v (concat rows)).
        { apply (proj1 (In_concat_rev rows v)). rewrite E. now left. }
        rewrite C in H. destruct H. }
      unfold mask_min, ndarray_min, raster_min. cbn [cells_of].
      now rewrite C, C'.
    + assert (Hne : concat rows <> []) by (rewrite C; discriminate).
      assert (Hne' : concat (rev rows) <> []).
      { intros E. assert (H : In v0 (concat (rev rows))).
        { apply (proj2 (In_concat_rev rows v0)). rewrite C. now left. }
        rewrite E in H. destruct H. }
      assert (F' : nan_free (rev rows) = true) by now rewrite nan_free_rev.
      destruct (raster_min_nan_free rows F Hne) as [m [Hm [Hin Hall]]].
      destruct (raster_min_nan_free (rev rows) F' Hne')
        as [m' [Hm' [Hin' Hall']]].
      assert (E : (m' == m)%Q).
      { apply Qle_antisym.
        - apply Hall'. exact (proj2 (In_concat_rev rows (Num m)) Hin).
        - apply Hall. exact (proj1 (In_concat_rev rows (Num m')) Hin'). }
      unfold mask_min, ndarray_min. cbn [cells_of]. rewrite Hm, Hm'.
      cbn [rbind flipud]. unfold mask_cells.
      rewrite map_rev.
      assert (M : map (map (fun v => if sample_eqb v (Num m') then NaN else v))
                      rows
                = map (map (fun v => if sample_eqb v (Num m) then NaN else v))
                      rows).
      { apply map_ext. intros row. apply map_ext. intros v.
        now rewrite (sample_eqb_Qeq m' m v E). }
      now rewrite M.
  - apply nan_free_false in F.
    rewrite (mask_min_NaN rows F). cbn [rbind flipud].
    apply mask_min_NaN. exact (proj2 (In_concat_rev rows NaN) F).
Qed.

(** An integer band fails at the assignment, flipped or not. *)
Example read_dem_int_band :
  read_dem (IntBand int_band) = Raise ValueError.
Proof. reflexivity. Qed.

Lemma append_assoc (a b c : string) :
  String.append (String.append a b) c = String.append a (String.append b c).
Proof. induction a as [|x a IH]; simpl; [reflexivity|now rewrite IH]. Qed.

Lemma append_inv_head (p a b : string) :
  String.append p a = String.append p b -> a = b.
Proof.
  induction p as [|x p IH]; simpl; intros H; [exact H|].
  inversion H. now apply IH.
Qed.

(** Two words that end at the first blank are equal when what they start
    is. *)
Lemma split_at_blank (d1 d2 r1 r2 : string) :
  no_space d1 -> no_space d2 ->
  String.append d1 (String " " r1) = String.append d2 (String " " r2) ->
  d1 = d2 /\ r1 = r2.
Proof.
  revert d2. induction d1 as [|a d1 IH]; intros [|b d2] H1 H2 E; simpl in *.
  - inversion E. now split.
  - inversion E; subst. destruct H2 as [H2 _]. congruence.
  - inversion E; subst. destruct H1 as [H1 _]. congruence.
  - inversion E; subst. destruct H1 as [_ H1], H2 as [_ H2].
    destruct (IH d2 H1 H2 H3) as [-> ->]. now split.
Qed.

Lemma no_space_uint (d : Decimal.uint) :
  no_space (NilEmpty.string_of_uint d).
Proof.
  induction d; simpl; try exact I; (split; [discriminate|assumption]).
Qed.

Lemma no_space_str_int (z : Z) : no_space (str_int z).
Proof.
  unfold str_int, NilZero.string_of_int, NilZero.string_of_uint.
  destruct (Z.to_int z) as [d|d].
  - destruct d; try apply no_space_uint. simpl. split; [discriminate|exact I].
  - split; [discriminate|].
    destruct d; try apply no_space_uint. simpl. split; [discriminate|exact I].
Qed.

Lemma str_int_inj (z1 z2 : Z) : str_int z1 = str_int z2 -> z1 = z2.
Proof.
  unfold str_int. intros E.
  assert (N : forall z, Z.to_int z <> Decimal.Pos Decimal.Nil /\
                        Z.to_int z <> Decimal.Neg Decimal.Nil).
  { intros z. split; intros H.
    - assert (Z0 : z = 0%Z) by (rewrite <- (DecimalZ.of_to z), H; reflexivity).
      subst z. discriminate.
    - assert (Z0 : z = 0%Z) by (rewrite <- (DecimalZ.of_to z), H; reflexivity).
      subst z. discriminate. }
  apply (f_equal NilZero.int_of_string) in E.
  rewrite !NilZero.isi in E by apply N.
  inversion E as [E'].
  rewrite <- (DecimalZ.of_to z1), <- (DecimalZ.of_to z2). now rewrite E'.
Qed.

(** X16. The PROJ.4 string determines the zone and the hemisphere. *)
Theorem proj_string_injective (u1 u2 : UTM) :
  proj_string u1 = proj_string u2 -> u1 = u2.
Proof.
  destruct u1 as [z1 s1], u2 as [z2 s2]. unfold proj_string.
  cbn [zone southern_hemisphere]. intros E.
  assert (G : z1 = z2 /\ s1 = s2).
  { destruct s1, s2; rewrite ?append_assoc in E;
      apply (append_inv_head "+proj=utm +zone=") in E;
      cbn [String.append] in E;
      apply split_at_blank in E; try apply no_space_str_int;
      destruct E as [E1 E2]; try discriminate;
      (split; [now apply str_int_inj|reflexivity]). }
  destruct G as [-> ->]. reflexivity.
Qed.

Lemma proj_string_injective_witness :
  {| zone := 59; southern_hemisphere := true |}
  = {| zone := 59; southern_hemisphere := true |}.
Proof.
  apply (proj_string_injective {| zone := 59; southern_hemisphere := true |}
                               {| zone := 59; southern_hemisphere := true |}).
  reflexivity.
Defined.

(** The string of the DEM of line 125: zone 59, southern hemisphere. *)
Example proj_string_zone_59_south :
  proj_string {| zone := 59; southern_hemisphere := true |}
  = "+proj=utm +zone=59 +datum=WGS84 +south".
Proof. reflexivity. Qed.

End DemFacts.

(** ** More on [gather_waveforms] *)

Module UtilsExtra.
Import Obspy Utils ObspyFacts UtilsFacts.

Lemma for_each_fetch (w : World) (mk : string -> Request) (xs : list string) :
  forall acc log,
    for_each xs
      (fun x log => (respond w log (mk x), log ++ [GetWaveforms (mk x)]))
      acc log
    = fetch w (map mk xs) acc log.
Proof.
  induction xs as [|x xs IH]; intros acc log; simpl; [reflexivity|].
  unfold bind. destruct (respond w log (mk x)); [apply IH|reflexivity].
Qed.

(** What a run of [fetch] leaves: a prefix of its requests in the log, all
    of them and their answers when it returns, the failing one last when it
    raises. *)
Lemma fetch_outcome (w : World) (rs : list Request) :
  forall acc log,
    let out := fetch w rs acc log in
    exists n,
      snd out = log ++ map GetWaveforms (firstn n rs) /\
      (forall st, fst out = Ok st ->
         n = length rs /\ st = acc ++ answered w log (map GetWaveforms rs)) /\
      (forall e, fst out = Raise e ->
         exists pre r, firstn n rs = pre ++ [r] /\
           respond w (log ++ map GetWaveforms pre) r = Raise e).
Proof.
  induction rs as [|r rs IH]; intros acc log; simpl.
  - exists 0. simpl. rewrite !app_nil_r. split; [reflexivity|]. split.
    + intros st H. inversion H. now split.
    + discriminate.
  - unfold bind. destruct (respond w log r) as [s|e0] eqn:R.
    + destruct (IH (acc ++ s) (log ++ [GetWaveforms r])) as [n [Hl [Hok Hr]]].
      exists (S n). split; [|split].
      * rewrite Hl, <- app_assoc. reflexivity.
      * intros st H. destruct (Hok st H) as [-> ->].
        split; [reflexivity|]. now rewrite <- app_assoc.
      * intros e H. destruct (Hr e H) as [pre [r' [Hp Hresp]]].
        exists (r :: pre), r'. simpl. rewrite Hp. split; [reflexivity|].
        now rewrite <- app_assoc in Hresp.
    + exists 1. simpl. split; [reflexivity|]. split; [discriminate|].
      intros e H. inversion H; subst. exists [], r. simpl.
      rewrite app_nil_r. now split.
Qed.

Ltac loop_as_fetch w mk :=
  match goal with
  | |- context [for_each ?xs ?body ?acc ?log] =>
      change (for_each xs body acc log)
        with (for_each xs
                (fun x l => (respond w l (mk x), l ++ [GetWaveforms (mk x)]))
                acc log);
      rewrite (for_each_fetch w mk)
  end.

(** The branches of [gather] are runs of [fetch] over the planned requests. *)
Lemma gather_fetch (w : World) (source network station : string)
  (starttime endtime : Z) (user password : option string) (log : list Event) :
  let rs := planned source network station starttime endtime user password in
  gather w source network station starttime endtime user password log =
    if String.eqb source "WATC" then
      let c := FDSN_Client "http://10.30.5.10:8080" user password in
      match connect w log c with
      | Ok _ => (st_out <-- fetch w rs [] ;;; ret (Some st_out))
                  (log ++ [Connect c])
      | Raise FDSNException => (Ok None, log ++ [Connect c])
      | Raise e => (Raise e, log ++ [Connect c])
      end
    else if String.eqb source "IRIS" || String.eqb source "AVO" then
      (st_out <-- fetch w rs [] ;;; ret (Some st_out)) log
    else (Ok None, log).
Proof.
  cbv zeta. unfold gather, planned, client_of.
  destruct (String.eqb_spec source "IRIS") as [->|NI].
  { simpl. unfold bind, get_waveforms, ret, request_of. simpl.
    destruct (respond w log _); reflexivity. }
  destruct (String.eqb_spec source "WATC") as [->|NW].
  { simpl. unfold bind, try_except_FDSNException, new_FDSN_Client,
      get_waveforms, ret, rbind, request_of. simpl.
    destruct (connect w log _) as [[]|e].
    - destruct (respond w _ _); reflexivity.
    - destruct e; reflexivity. }
  destruct (String.eqb_spec source "AVO") as [->|NA]; [|reflexivity].
  simpl orb. cbv iota.
  unfold avo_table, member. cbn [existsb].
  destruct (String.eqb_spec station "AKS") as [->|NAKS].
  { cbn [orb andb String.eqb Ascii.eqb Bool.eqb]. cbv beta iota. unfold bind.
    loop_as_fetch w (fun c => request_of avo_client network "AKS"
                                         starttime endtime (blank, c)).
    reflexivity. }
  destruct (String.eqb_spec station "DLL") as [->|NDLL].
  { cbn [orb andb String.eqb Ascii.eqb Bool.eqb]. cbv beta iota. unfold bind.
    loop_as_fetch w (fun l => request_of avo_client network "DLL"
                                         starttime endtime (l, "HDF")).
    reflexivity. }
  destruct (String.eqb_spec station "OKIF") as [->|NOKIF].
  { cbn [orb andb String.eqb Ascii.eqb Bool.eqb]. cbv beta iota. unfold bind.
    loop_as_fetch w (fun l => request_of avo_client network "OKIF"
                                         starttime endtime (l, "HDF")).
    reflexivity. }
  destruct (String.eqb_spec station "ADKI") as [->|NADKI].
  { cbn [orb andb String.eqb Ascii.eqb Bool.eqb]. cbv beta iota. unfold bind.
    loop_as_fetch w (fun l => request_of avo_client network "ADKI"
                                         starttime endtime (l, "BDF")).
    reflexivity. }
  destruct (String.eqb_spec station "SDPI") as [->|NSDPI].
  { cbn [orb andb String.eqb Ascii.eqb Bool.eqb]. cbv beta iota. unfold bind.
    loop_as_fetch w (fun l => request_of avo_client network "SDPI"
                                         starttime endtime (l, "BDF")).
    reflexivity. }
  cbn [orb]. cbv iota. simpl.
  unfold bind, get_waveforms, ret, request_of. simpl.
  destruct (respond w log _); reflexivity.
Qed.

(** A run of [fetch] either gets every request answered, or stops at the
    first request that raises, with that exception. *)
Lemma fetch_cases (w : World) (rs : list Request) :
  forall acc log,
    (exists st,
       fetch w rs acc log = (Ok st, log ++ map GetWaveforms rs) /\
       all_answered w log rs) \/
    (exists e pre r post,
       rs = pre ++ r :: post /\
       fetch w rs acc log = (Raise e, log ++ map GetWaveforms (pre ++ [r])) /\
       all_answered w log pre /\
       respond w (log ++ map GetWaveforms pre) r = Raise e).
Proof.
  induction rs as [|r rs IH]; intros acc log.
  - left. exists acc. simpl. rewrite app_nil_r. now split.
  - cbn [fetch]. unfold bind. destruct (respond w log r) as [s|e] eqn:R.
    + destruct (IH (acc ++ s) (log ++ [GetWaveforms r]))
        as [[st [Hf Ha]]|[e [pre [r' [post [Hrs [Hf [Ha Hr]]]]]]]].
      * left. exists st. split.
        -- rewrite Hf, <- app_assoc. reflexivity.
        -- split; [now exists s|exact Ha].
      * right. exists e, (r :: pre), r', post.
        split; [now rewrite Hrs|]. split.
        -- rewrite Hf, <- app_assoc. reflexivity.
        -- split.
           ++ split; [now exists s|exact Ha].
           ++ cbn [map app]. now rewrite <- app_assoc in Hr.
    + right. exists e, [], r, rs. cbn [app map].
      rewrite app_nil_r. now repeat split.
Qed.

(** C5. With source ['AVO'] the waveform requests are those of the station
    table, issued one after the other through [avo_client]: four channels
    with a blank location for AKS, the six locations with channel HDF for DLL
    and OKIF and with BDF for ADKI and SDPI, one request with a blank
    location and channel BDF for any other station.  Either every request of
    the table is issued and answered and a stream is returned, or the
    requests stop at the first that raises, whose exception the call
    raises.  With any other source every request asks for location ['*'] and
    channels ['BDF,HDF'], whatever the station. *)
Theorem avo_requests_follow_station_table (w : World)
  (network station : string) (starttime endtime : Z)
  (user password : option string) (log : list Event) :
  (let out := gather_waveforms w "AVO" network station starttime endtime
                               user password log in
   let rs := map (request_of avo_client network station starttime endtime)
                 (avo_table station) in
   (exists st,
      out = (Ok (Some st), log ++ map GetWaveforms rs) /\
      all_answered w log rs) \/
   (exists e pre r post,
      rs = pre ++ r :: post /\
      out = (Raise e, log ++ map GetWaveforms (pre ++ [r])) /\
      all_answered w log pre /\
      respond w (log ++ map GetWaveforms pre) r = Raise e)) /\
  (forall source, source <> "AVO" ->
     exists new,
       snd (gather_waveforms w source network station starttime endtime
                             user password log) = log ++ new /\
       Forall (fun r => rq_network r = network /\ rq_station r = station /\
                        rq_location r = "*" /\ rq_channel r = "BDF,HDF")
              (requests new)) /\
  avo_table "AKS" =
    [(blank, "BDF"); (blank, "BDG"); (blank, "BDH"); (blank, "BDI")] /\
  avo_table "DLL" = map (fun l => (l, "HDF")) six_elements /\
  avo_table "OKIF" = map (fun l => (l, "HDF")) six_elements /\
  avo_table "ADKI" = map (fun l => (l, "BDF")) six_elements /\
  avo_table "SDPI" = map (fun l => (l, "BDF")) six_elements /\
  (~ In station ["ADKI"; "AKS"; "DLL"; "OKIF"; "SDPI"] ->
   avo_table station = [(blank, "BDF")]).
Proof.
  split; [|split].
  - cbv zeta. rewrite gather_waveforms_unfold.
    pose proof (gather_fetch w "AVO" network station starttime endtime
                  user password log) as G.
    cbv zeta in G. rewrite G. clear G.
    change (String.eqb "AVO" "WATC") with false.
    change (String.eqb "AVO" "IRIS" || String.eqb "AVO" "AVO") with true.
    cbv iota.
    change (planned "AVO" network station starttime endtime user password)
      with (map (request_of avo_client network station starttime endtime)
                (avo_table station)).
    unfold bind, ret.
    destruct (fetch_cases w
                (map (request_of avo_client network station starttime endtime)
                     (avo_table station)) [] log)
      as [[st [Hf Ha]]|[e [pre [r [post [Hrs [Hf [Ha Hr]]]]]]]];
      rewrite Hf.
    + left. exists (Stream_sort st). now split.
    + right. exists e, pre, r, post. now repeat split.
  - intros source NA.
    destruct (gather_waveforms_outcome w source network station starttime
                endtime user password log) as [Hs _].
    rewrite Hs. now apply gather_other_requests.
  - repeat (split; [reflexivity|]).
    intros N. unfold avo_table, member. simpl existsb.
    simpl in N.
    destruct (String.eqb_spec station "AKS"); [subst; tauto|].
    destruct (String.eqb_spec station "DLL"); [subst; tauto|].
    destruct (String.eqb_spec station "OKIF"); [subst; tauto|].
    destruct (String.eqb_spec station "ADKI"); [subst; tauto|].
    destruct (String.eqb_spec station "SDPI"); [subst; tauto|].
    reflexivity.
Qed.

Lemma requests_map (rs : list Request) : requests (map GetWaveforms rs) = rs.
Proof. induction rs as [|r rs IH]; simpl; [reflexivity|now rewrite IH]. Qed.

(** The log and the result of [gather], branch by branch, against the
    planned events. *)
Lemma gather_outcome (w : World) (source network station : string)
  (starttime endtime : Z) (user password : option string) (log : list Event) :
  let g := gather w source network station starttime endtime user password log in
  let ev := planned_events source network station starttime endtime
                           user password in
  exists n,
    snd g = log ++ firstn n ev /\
    (forall raw, fst g = Ok (Some raw) ->
       firstn n ev = ev /\ raw = answered w log ev) /\
    (forall e, fst g = Raise e ->
       (exists pre r, firstn n ev = pre ++ [GetWaveforms r] /\
                      respond w (log ++ pre) r = Raise e) \/
       (exists c, source = "WATC" /\ firstn n ev = [Connect c] /\
                  connect w log c = Raise e /\ e <> FDSNException)).
Proof.
  cbv zeta. rewrite gather_fetch. unfold planned_events.
  remember (planned source network station starttime endtime user password)
    as rs eqn:Hrs. clear Hrs.
  destruct (String.eqb_spec source "WATC") as [->|NW].
  - cbv zeta.
    set (c := FDSN_Client "http://10.30.5.10:8080" user password).
    destruct (connect w log c) as [[]|e0] eqn:C.
    + destruct (fetch_outcome w rs [] (log ++ [Connect c])) as [n [Hl [Hok Hr]]].
      destruct (bind_Some (fetch w rs []) (log ++ [Connect c])) as [Bs [_ Bo]].
      exists (S n). split; [|split].
      * rewrite Bs, Hl, <- app_assoc. simpl. now rewrite firstn_map.
      * intros raw H. destruct (Bo _ H) as [st [Hst E]]. inversion E; subst st.
        destruct (Hok _ Hst) as [-> ->]. simpl.
        rewrite firstn_all2 by (rewrite length_map; lia). now split.
      * intros e H. left.
        unfold bind in H. destruct (fetch w rs [] (log ++ [Connect c]))
          as [[st|e1] l1] eqn:F; simpl in H; [discriminate|].
        inversion H; subst e1.
        destruct (Hr e eq_refl) as [pre [r [Hp Hresp]]].
        exists (Connect c :: map GetWaveforms pre), r. simpl.
        rewrite firstn_map, Hp, map_app. simpl. split; [reflexivity|].
        now rewrite <- app_assoc in Hresp.
    + exists 1. simpl. destruct e0; simpl; (split; [reflexivity|]);
        (split; [discriminate|]); intros e H; try discriminate H;
        inversion H; subst; right; exists c;
        (split; [reflexivity|]); (split; [reflexivity|]);
        (split; [exact C|discriminate]).
  - simpl app. destruct (String.eqb source "IRIS" || String.eqb source "AVO").
    + destruct (fetch_outcome w rs [] log) as [n [Hl [Hok Hr]]].
      destruct (bind_Some (fetch w rs []) log) as [Bs [_ Bo]].
      exists n. split; [|split].
      * rewrite Bs, Hl. now rewrite firstn_map.
      * intros raw H. destruct (Bo _ H) as [st [Hst E]]. inversion E; subst st.
        destruct (Hok _ Hst) as [-> ->]. simpl.
        rewrite firstn_all2 by (rewrite length_map; lia). now split.
      * intros e H. left.
        unfold bind in H. destruct (fetch w rs [] log)
          as [[st|e1] l1] eqn:F; simpl in H; [discriminate|].
        inversion H; subst e1.
        destruct (Hr e eq_refl) as [pre [r [Hp Hresp]]].
        exists (map GetWaveforms pre), r.
        rewrite firstn_map, Hp, map_app. simpl. now split.
    + exists 0. simpl. rewrite app_nil_r. split; [reflexivity|].
      split; discriminate.
Qed.

Lemma firstn_incl {A : Type} (n : nat) (l : list A) (x : A) :
  In x (firstn n l) -> In x l.
Proof.
  revert l. induction n as [|n IH]; intros [|a l] H; simpl in *; try tauto.
  destruct H as [->|H]; [now left|right; now apply IH].
Qed.

Lemma avo_table_length (station : string) : length (avo_table station) <= 6.
Proof.
  unfold avo_table, member. cbn [existsb].
  destruct (String.eqb station "AKS"); [simpl; lia|].
  destruct (String.eqb station "DLL" || _); [simpl; lia|].
  destruct (String.eqb station "ADKI" || _); simpl; lia.
Qed.

Lemma planned_events_as_asked (source network station : string)
  (starttime endtime : Z) (user password : option string) :
  Forall (event_as_asked source network station starttime endtime
                         user password)
         (planned_events source network station starttime endtime
                         user password).
Proof.
  unfold planned_events, planned.
  destruct (String.eqb_spec source "AVO") as [->|NA].
  { simpl. apply Forall_forall. intros ev H.
    apply in_map_iff in H. destruct H as [r [<- H]].
    apply in_map_iff in H. destruct H as [lc [<- _]].
    simpl. now repeat split. }
  destruct (String.eqb_spec source "WATC") as [->|NW].
  { simpl. repeat constructor. }
  destruct (String.eqb_spec source "IRIS") as [->|NI].
  { simpl. repeat constructor. }
  simpl. constructor.
Qed.

Lemma planned_events_length (source network station : string)
  (starttime endtime : Z) (user password : option string) :
  length (planned_events source network station starttime endtime
                         user password) <= 6.
Proof.
  unfold planned_events, planned.
  destruct (String.eqb_spec source "AVO") as [->|NA].
  { simpl. rewrite !length_map. apply avo_table_length. }
  destruct (String.eqb source "WATC"), (String.eqb source "IRIS"); simpl; lia.
Qed.

Lemma requests_length (l : list Event) : length (requests l) <= length l.
Proof.
  induction l as [|[c|r] l IH]; simpl; lia.
Qed.

(** X1. When [gather_waveforms] returns a stream, every planned event has
    taken place, and the stream is made of the traces the servers returned,
    all of them and no other, after [Stream.sort()]. *)
Theorem gather_waveforms_returns_answers (w : World)
  (source network station : string) (starttime endtime : Z)
  (user password : option string) (log : list Event) (st : Stream) :
  fst (gather_waveforms w source network station starttime endtime
                        user password log) = Ok (Some st) ->
  snd (gather_waveforms w source network station starttime endtime
                        user password log)
    = log ++ planned_events source network station starttime endtime
                            user password /\
  requests (planned_events source network station starttime endtime
                           user password)
    = planned source network station starttime endtime user password /\
  st = Stream_sort
         (answered w log (planned_events source network station starttime
                                         endtime user password)) /\
  Permutation
    (answered w log (planned_events source network station starttime
                                    endtime user password)) st /\
  length st
    = length (answered w log (planned_events source network station
                                starttime endtime user password)).
Proof.
  cbv zeta. intros H.
  destruct (gather_waveforms_outcome w source network station starttime
              endtime user password log) as [Hs [_ [Hst _]]].
  apply Hst in H. destruct H as [raw [Hg ->]].
  destruct (gather_outcome w source network station starttime endtime
              user password log) as [n [Hl [Hok _]]].
  destruct (Hok raw Hg) as [Hall ->].
  rewrite Hs, Hl, Hall. split; [reflexivity|]. split.
  - unfold planned_events. rewrite requests_app, requests_map.
    destruct (String.eqb source "WATC"); reflexivity.
  - split; [reflexivity|]. split; [apply sort_by_perm|].
    symmetry. apply Permutation_length, sort_by_perm.
Qed.

Lemma gather_waveforms_returns_answers_witness :
  snd (gather_waveforms sample_world "IRIS" "AV" "DLL" 0 3600 None None [])
    = [] ++ planned_events "IRIS" "AV" "DLL" 0 3600 None None /\
  requests (planned_events "IRIS" "AV" "DLL" 0 3600 None None)
    = planned "IRIS" "AV" "DLL" 0 3600 None None /\
  [sample_trace "DLL" "*" "BDF,HDF"; sample_trace "DLL" "*" "HDG"]
    = Stream_sort
        (answered sample_world []
                  (planned_events "IRIS" "AV" "DLL" 0 3600 None None)) /\
  Permutation
    (answered sample_world []
              (planned_events "IRIS" "AV" "DLL" 0 3600 None None))
    [sample_trace "DLL" "*" "BDF,HDF"; sample_trace "DLL" "*" "HDG"] /\
  length [sample_trace "DLL" "*" "BDF,HDF"; sample_trace "DLL" "*" "HDG"]
    = length (answered sample_world []
                (planned_events "IRIS" "AV" "DLL" 0 3600 None None)).
Proof.
  apply (gather_waveforms_returns_answers sample_world "IRIS" "AV" "DLL"
                                          0 3600 None None []).
  reflexivity.
Defined.

(** X2. When [gather_waveforms] raises, the exception is that of its last
    event: a waveform request that raised it, [FDSNException] included, or,
    for ['WATC'], a connection that raised something else than
    [FDSNException].  Nothing is requested after the failure. *)
Theorem gather_waveforms_raises_last_event (w : World)
  (source network station : string) (starttime endtime : Z)
  (user password : option string) (log : list Event) (e : PyExc) :
  fst (gather_waveforms w source network station starttime endtime
                        user password log) = Raise e ->
  exists new,
    snd (gather_waveforms w source network station starttime endtime
                          user password log) = log ++ new /\
    ((exists pre r, new = pre ++ [GetWaveforms r] /\
                    respond w (log ++ pre) r = Raise e) \/
     (exists c, source = "WATC" /\ new = [Connect c] /\
                connect w log c = Raise e /\ e <> FDSNException)).
Proof.
  cbv zeta. intros H.
  rewrite gather_waveforms_unfold in H |- *.
  destruct (gather_outcome w source network station starttime endtime
              user password log) as [n [Hl [_ Hr]]].
  destruct (gather w source network station starttime endtime
              user password log) as [[[raw|]|e0] log'];
    simpl in *; try discriminate.
  inversion H; subst e0.
  exists (firstn n (planned_events source network station starttime endtime
                                   user password)).
  split; [exact Hl|]. now apply Hr.
Qed.

Lemma gather_waveforms_raises_last_event_witness :
  exists new,
    snd (gather_waveforms failing_world "AVO" "AV" "DLL" 0 3600 None None [])
      = [] ++ new /\
    ((exists pre r, new = pre ++ [GetWaveforms r] /\
                    respond failing_world ([] ++ pre) r
                      = Raise FDSNException) \/
     (exists c, "AVO" = "WATC" /\ new = [Connect c] /\
                connect failing_world [] c = Raise FDSNException /\
                FDSNException <> FDSNException)).
Proof.
  apply (gather_waveforms_raises_last_event failing_world "AVO" "AV" "DLL"
                                            0 3600 None None []).
  reflexivity.
Defined.

(** X3. Every waveform request of a call asks for the caller's network,
    station and time window through the client of the source; a connection
    is made for ['WATC'] only, with the caller's credentials. *)
Theorem gather_waveforms_events_as_asked (w : World)
  (source network station : string) (starttime endtime : Z)
  (user password : option string) (log : list Event) :
  exists new,
    snd (gather_waveforms w source network station starttime endtime
                          user password log) = log ++ new /\
    Forall (event_as_asked source network station starttime endtime
                           user password) new.
Proof.
  destruct (gather_waveforms_outcome w source network station starttime
              endtime user password log) as [Hs _].
  destruct (gather_outcome w source network station starttime endtime
              user password log) as [n [Hl _]].
  exists (firstn n (planned_events source network station starttime endtime
                                   user password)).
  split; [now rewrite Hs|].
  apply Forall_forall. intros ev Hev. apply firstn_incl in Hev.
  pose proof (planned_events_as_asked source network station starttime
                endtime user password) as F.
  rewrite Forall_forall in F. now apply F.
Qed.

(** X4. A call makes at most six events, hence at most six waveform
    requests. *)
Theorem gather_waveforms_at_most_six_requests (w : World)
  (source network station : string) (starttime endtime : Z)
  (user password : option string) (log : list Event) :
  exists new,
    snd (gather_waveforms w source network station starttime endtime
                          user password log) = log ++ new /\
    length new <= 6 /\ length (requests new) <= 6.
Proof.
  destruct (gather_waveforms_outcome w source network station starttime
              endtime user password log) as [Hs _].
  destruct (gather_outcome w source network station starttime endtime
              user password log) as [n [Hl _]].
  exists (firstn n (planned_events source network station starttime endtime
                                   user password)).
  split; [now rewrite Hs|].
  pose proof (planned_events_length source network station starttime
                endtime user password) as L.
  pose proof (length_firstn n (planned_events source network station
                starttime endtime user password)) as F.
  pose proof (requests_length (firstn n (planned_events source network
                station starttime endtime user password))) as R.
  lia.
Qed.

End UtilsExtra.
